(** * Tool-access policy engine: name normalizer, tool catalog, profile
      resolver, policy pipeline and the [/tools:reset] command.

    Shallow embedding of
      - [src/agents/tool-policy-shared.ts]   (module [Shared]),
      - the tool catalog [tool-catalog.ts]   (module [Catalog]),
      - [src/agents/tool-policy-pipeline.ts] (module [Pipeline]), with what
        it imports from [tool-policy.ts] and [pi-tools.policy.ts] modelled
        in module [ToolPolicy],
      - [src/auto-reply/reply/commands-tools-reset.ts] (module [Reset]).

    Strings are Rocq [string]s, read as ASCII text: [trim] removes the
    ASCII white space of ECMAScript (TAB, LF, VT, FF, CR, SP) and
    [toLowerCase] maps [A-Z] to [a-z]; every other character is left
    alone.  Arrays are lists, [Record<string, T>] objects are [gmap string T]
    together with the members every plain object inherits from
    [Object.prototype], [Set]s built from arrays are lists in insertion
    order without repetition. *)

From Stdlib Require Import Ascii.
From stdpp Require Import base option list strings gmap.

Local Open Scope string_scope.
Local Open Scope list_scope.
Local Open Scope nat_scope.

(* ===================================================================== *)
(** ** JavaScript values that reach the policy code                       *)
(* ===================================================================== *)

Module Js.

(** Property names every object literal inherits from [Object.prototype]
    (V8).  A read [obj[k]] with [k] in this list and no own property [k]
    yields the inherited member, which is neither [undefined] nor [null]. *)
Definition objectPrototypeKeys : list string :=
  [ "constructor"; "__defineGetter__"; "__defineSetter__"; "hasOwnProperty";
    "__lookupGetter__"; "__lookupSetter__"; "isPrototypeOf";
    "propertyIsEnumerable"; "toString"; "valueOf"; "__proto__";
    "toLocaleString" ].

Definition isInherited (k : string) : bool :=
  bool_decide (k ∈ objectPrototypeKeys).

(** [obj[k]] for an object literal whose own properties are [own]:
    [inherited k] is how the caller sees the member of [Object.prototype]
    found under [k]; [None] is [undefined]. *)
Definition get {A : Type} (own : gmap string A) (inherited : string → A)
    (k : string) : option A :=
  match own !! k with
  | Some v => Some v
  | None => if isInherited k then Some (inherited k) else None
  end.

(** A value where the code expects a string: a string, or the member of
    [Object.prototype] stored under [key] (a function, or the prototype
    object itself for [__proto__]). *)
Inductive value : Type :=
  | Str (s : string)
  | Inherited (key : string).

#[global] Instance value_eq_dec : EqDecision value.
Proof. solve_decision. Defined.

(** [Boolean(v)]: the empty string is falsy, objects and functions are not. *)
Definition truthy (v : value) : bool :=
  match v with
  | Str s => negb (String.eqb s EmptyString)
  | Inherited _ => true
  end.

(** [Boolean(s)] for a string. *)
Definition nonEmpty (s : string) : bool := negb (String.eqb s EmptyString).

(** The text between double quotes, as a template literal writes it. *)
Definition quoted (s : string) : string :=
  String (ascii_of_nat 34) (s +:+ String (ascii_of_nat 34) EmptyString).

(** [xs.join(sep)] *)
Fixpoint join (sep : string) (xs : list string) : string :=
  match xs with
  | [] => EmptyString
  | [x] => x
  | x :: rest => x +:+ sep +:+ join sep rest
  end.

(** [Array.from(new Set(xs))]: first occurrences, in insertion order. *)
Definition setAdd {A : Type} `{EqDecision A} (seen : list A) (x : A) : list A :=
  if bool_decide (x ∈ seen) then seen else seen ++ [x].

Definition uniq {A : Type} `{EqDecision A} (xs : list A) : list A :=
  foldl setAdd [] xs.

(** [String.prototype.trim] and [toLowerCase] on ASCII text. *)
Definition isWhiteSpace (c : ascii) : bool :=
  let n := nat_of_ascii c in
  ((9 <=? n)%nat && (n <=? 13)%nat) || (n =? 32)%nat.

Fixpoint trimStart (s : string) : string :=
  match s with
  | EmptyString => EmptyString
  | String c r => if isWhiteSpace c then trimStart r else s
  end.

Fixpoint trimEnd (s : string) : string :=
  match s with
  | EmptyString => EmptyString
  | String c r =>
      match trimEnd r with
      | EmptyString => if isWhiteSpace c then EmptyString else String c EmptyString
      | r' => String c r'
      end
  end.

Definition trim (s : string) : string := trimEnd (trimStart s).

Definition lowerChar (c : ascii) : ascii :=
  let n := nat_of_ascii c in
  if ((65 <=? n)%nat && (n <=? 90)%nat) then ascii_of_nat (n + 32) else c.

Fixpoint toLowerCase (s : string) : string :=
  match s with
  | EmptyString => EmptyString
  | String c r => String (lowerChar c) (toLowerCase r)
  end.

End Js.

(* ===================================================================== *)
(** ** The tool catalog and the profile resolvers                         *)
(* ===================================================================== *)

Module Catalog.

(** [type ToolProfileId = "minimal" | "coding" | "messaging" | "full"] *)
Inductive ToolProfileId : Set := Minimal | Coding | Messaging | Full.

#[global] Instance ToolProfileId_eq_dec : EqDecision ToolProfileId.
Proof. solve_decision. Defined.

Definition profileIdName (p : ToolProfileId) : string :=
  match p with
  | Minimal => "minimal"
  | Coding => "coding"
  | Messaging => "messaging"
  | Full => "full"
  end.

(** [type ToolProfilePolicy = { allow?: string[]; deny?: string[] }] *)
Record ToolProfilePolicy : Type := mkPolicy {
  allow : option (list string);
  deny : option (list string);
}.

#[global] Instance ToolProfilePolicy_eq_dec : EqDecision ToolProfilePolicy.
Proof. solve_decision. Defined.

(** [type CoreToolDefinition] *)
Record CoreToolDefinition : Type := mkTool {
  id : string;
  label : string;
  description : string;
  sectionId : string;
  profiles : list ToolProfileId;
  includeInOpenClawGroup : bool;
}.

Definition tool (i d s : string) (ps : list ToolProfileId) (oc : bool) :
    CoreToolDefinition :=
  {| id := i; label := i; description := d; sectionId := s; profiles := ps;
     includeInOpenClawGroup := oc |}.

(** [const CORE_TOOL_DEFINITIONS: CoreToolDefinition[]] *)
Definition CORE_TOOL_DEFINITIONS : list CoreToolDefinition :=
  [ tool "read" "Read file contents" "fs" [Coding] false;
    tool "write" "Create or overwrite files" "fs" [Coding] false;
    tool "edit" "Make precise edits" "fs" [Coding] false;
    tool "apply_patch" "Patch files (OpenAI)" "fs" [Coding] false;
    tool "exec" "Run shell commands" "runtime" [Coding] false;
    tool "process" "Manage background processes" "runtime" [Coding] false;
    tool "web_search" "Search the web" "web" [] true;
    tool "web_fetch" "Fetch web content" "web" [] true;
    tool "memory_search" "Semantic search" "memory" [Coding] true;
    tool "memory_get" "Read memory files" "memory" [Coding] true;
    tool "sessions_list" "List sessions" "sessions" [Coding; Messaging] true;
    tool "sessions_history" "Session history" "sessions" [Coding; Messaging] true;
    tool "sessions_send" "Send to session" "sessions" [Coding; Messaging] true;
    tool "sessions_spawn" "Spawn sub-agent" "sessions" [Coding] true;
    tool "subagents" "Manage sub-agents" "sessions" [Coding] true;
    tool "session_status" "Session status" "sessions" [Minimal; Coding; Messaging] true;
    tool "browser" "Control web browser" "ui" [] true;
    tool "canvas" "Control canvases" "ui" [] true;
    tool "message" "Send messages" "messaging" [Messaging] true;
    tool "cron" "Schedule tasks" "automation" [Coding] true;
    tool "gateway" "Gateway control" "automation" [] true;
    tool "nodes" "Nodes + devices" "nodes" [] true;
    tool "agents_list" "List agents" "agents" [] true;
    tool "image" "Image understanding" "media" [Coding] true;
    tool "tts" "Text-to-speech conversion" "media" [] true ].

(** [listCoreToolIdsForProfile(profile)]:
    [CORE_TOOL_DEFINITIONS.filter((tool) => tool.profiles.includes(profile))
       .map((tool) => tool.id)] *)
Definition listCoreToolIdsForProfile (profile : ToolProfileId) : list string :=
  id <$> List.filter (λ t, bool_decide (profile ∈ profiles t)) CORE_TOOL_DEFINITIONS.

(** [const CORE_TOOL_PROFILES: Record<ToolProfileId, ToolProfilePolicy>] *)
Definition CORE_TOOL_PROFILES : gmap string ToolProfilePolicy :=
  <["minimal" := mkPolicy (Some (listCoreToolIdsForProfile Minimal)) None]>
 (<["coding" := mkPolicy (Some (listCoreToolIdsForProfile Coding)) None]>
 (<["messaging" := mkPolicy (Some (listCoreToolIdsForProfile Messaging)) None]>
 (<["full" := mkPolicy None None]> ∅))).

(** [CORE_TOOL_PROFILES[profile as ToolProfileId]] for an arbitrary string:
    a member inherited from [Object.prototype] is an object that has
    neither an [allow] nor a [deny] property. *)
Definition coreProfile (profile : string) : option ToolProfilePolicy :=
  Js.get CORE_TOOL_PROFILES (λ _, mkPolicy None None) profile.

(** [buildCoreToolGroupMap()] and [CORE_TOOL_GROUPS] *)
Definition buildCoreToolGroupMap : gmap string (list string) :=
  let sectionToolMap :=
    foldl (λ (m : gmap string (list string)) t,
             let groupId := "group:" +:+ sectionId t in
             <[groupId := default [] (m !! groupId) ++ [id t]]> m)
          ∅ CORE_TOOL_DEFINITIONS in
  let openclawTools :=
    id <$> List.filter includeInOpenClawGroup CORE_TOOL_DEFINITIONS in
  sectionToolMap ∪ {["group:openclaw" := openclawTools]}.

Definition CORE_TOOL_GROUPS : gmap string (list string) :=
  buildCoreToolGroupMap.

(** [resolveCoreToolProfilePolicy(profile?)] *)
Definition resolveCoreToolProfilePolicy (profile : option string) :
    option ToolProfilePolicy :=
  match profile with
  | None => None
  | Some profile =>
      if negb (Js.nonEmpty profile) then None
      else
        match coreProfile profile with
        | None => None
        | Some resolved =>
            match allow resolved, deny resolved with
            | None, None => None
            | a, d => Some {| allow := a; deny := d |}
            end
        end
  end.

(** [type ResolvedProfileTrace] *)
Record ResolvedProfileTrace : Type := mkTrace {
  resolvedFrom : list string;
  effectiveAllow : list string;
  effectiveDeny : list string;
}.

(** [type NamedProfileInput] *)
Record NamedProfileInput : Type := mkNamed {
  extends : option string;
  nallow : option (list string);
  ndeny : option (list string);
}.

(** [namedProfiles[k]]: an inherited member has no [extends], [allow] or
    [deny] property. *)
Definition namedProfile (namedProfiles : gmap string NamedProfileInput)
    (k : string) : option NamedProfileInput :=
  Js.get namedProfiles (λ _, mkNamed None None None) k.

Definition MAX_EXTENDS_DEPTH : nat := 5.

(** The variables the [while] loop of [resolveNamedToolProfilePolicy]
    updates. *)
Record Walk : Type := mkWalk {
  chain : list string;
  visited : gset string;
  allAllow : list string;
  allDeny : list string;
}.

(** [if (xs) acc.push(...xs)] *)
Definition pushAll (acc : list string) (xs : option (list string)) : list string :=
  match xs with
  | Some l => acc ++ l
  | None => acc
  end.

(** One run of the loop body on a defined [current]: the updated variables,
    and the next value of [current]; [None] leaves the loop, by a [break]
    or because [namedProfiles[parentName]] is [undefined]. *)
Definition walkBody (namedProfiles : gmap string NamedProfileInput)
    (w : Walk) (current : NamedProfileInput) : Walk * option NamedProfileInput :=
  let w1 := {| chain := chain w; visited := visited w;
               allAllow := pushAll (allAllow w) (nallow current);
               allDeny := pushAll (allDeny w) (ndeny current) |} in
  match extends current with
  | None => (w1, None)
  | Some parentName =>
      if negb (Js.nonEmpty parentName) then (w1, None)
      else if bool_decide (parentName ∈ visited w1) then (w1, None)
      else if bool_decide (MAX_EXTENDS_DEPTH ≤ length (chain w1))%nat then (w1, None)
      else
        let w2 := {| chain := chain w1 ++ [parentName];
                     visited := {[parentName]} ∪ visited w1;
                     allAllow := allAllow w1; allDeny := allDeny w1 |} in
        match coreProfile parentName with
        | Some builtIn =>
            ({| chain := chain w2; visited := visited w2;
                allAllow := pushAll (allAllow w2) (allow builtIn);
                allDeny := pushAll (allDeny w2) (deny builtIn) |}, None)
        | None => (w2, namedProfile namedProfiles parentName)
        end
  end.

(** [while (current) { ... }], at most [fuel] runs of the body; [None] when
    the fuel is spent with [current] still defined. *)
Fixpoint walk (fuel : nat) (namedProfiles : gmap string NamedProfileInput)
    (w : Walk) (current : option NamedProfileInput) : option Walk :=
  match current with
  | None => Some w
  | Some cur =>
      match fuel with
      | O => None
      | S fuel' =>
          let '(w', next) := walkBody namedProfiles w cur in
          walk fuel' namedProfiles w' next
      end
  end.

Record Resolved : Type := mkResolved {
  policy : ToolProfilePolicy;
  trace : ResolvedProfileTrace;
}.

(** Lines 361-383: the merge after the loop. *)
Definition merge (w : Walk) : option Resolved :=
  let denySet : gset string := list_to_set (allDeny w) in
  let effectiveAllow :=
    if bool_decide (0 < length (allAllow w))%nat
    then List.filter (λ t, negb (bool_decide (t ∈ denySet))) (Js.uniq (allAllow w))
    else [] in
  let effectiveDeny := Js.uniq (allDeny w) in
  let policy :=
    {| allow := if bool_decide (0 < length effectiveAllow)%nat
                then Some effectiveAllow else None;
       deny := if bool_decide (0 < length effectiveDeny)%nat
               then Some effectiveDeny else None |} in
  match allow policy, deny policy with
  | None, None => None
  | _, _ =>
      Some {| policy := policy;
              trace := {| resolvedFrom := chain w;
                          effectiveAllow := effectiveAllow;
                          effectiveDeny := effectiveDeny |} |}
  end.

(** The outcome of a call: a returned value, or a loop that is still
    running when the fuel is spent. *)
Inductive outcome (A : Type) : Type :=
  | Returned (a : A)
  | OutOfFuel.
Arguments Returned {A} a.
Arguments OutOfFuel {A}.

(** [resolveNamedToolProfilePolicy(profileName, namedProfiles)] with the
    loop run on [fuel]. *)
Definition resolveNamedWith (fuel : nat) (profileName : string)
    (namedProfiles : gmap string NamedProfileInput) : outcome (option Resolved) :=
  match namedProfile namedProfiles profileName with
  | None => Returned None
  | Some profile =>
      let w0 := {| chain := [profileName]; visited := {[profileName]};
                   allAllow := []; allDeny := [] |} in
      match walk fuel namedProfiles w0 (Some profile) with
      | None => OutOfFuel
      | Some w => Returned (merge w)
      end
  end.

(** The loop never needs more than [MAX_EXTENDS_DEPTH] runs
    (lemma [walk_reaches] below). *)
Definition resolveNamedToolProfilePolicy (profileName : string)
    (namedProfiles : gmap string NamedProfileInput) : outcome (option Resolved) :=
  resolveNamedWith MAX_EXTENDS_DEPTH profileName namedProfiles.

(** [type CoreToolSection]; the fields are prefixed, [id], [label] and
    [description] being fields of [CoreToolDefinition] already. *)
Record CoreToolSectionEntry : Type := mkSectionEntry {
  entry_id : string;
  entry_label : string;
  entry_description : string;
}.

Record CoreToolSection : Type := mkSection {
  section_id : string;
  section_label : string;
  section_tools : list CoreToolSectionEntry;
}.

(** [const CORE_TOOL_SECTION_ORDER: Array<{ id: string; label: string }>] *)
Definition CORE_TOOL_SECTION_ORDER : list (string * string) :=
  [ ("fs", "Files"); ("runtime", "Runtime"); ("web", "Web"); ("memory", "Memory");
    ("sessions", "Sessions"); ("ui", "UI"); ("messaging", "Messaging");
    ("automation", "Automation"); ("nodes", "Nodes"); ("agents", "Agents");
    ("media", "Media") ].

(** [new Map(entries)]: entries are set in order, a later entry for the same
    key replaces the earlier one.  A [Map] has no inherited keys. *)
Definition mapOfEntries {A : Type} (entries : list (string * A)) : gmap string A :=
  foldl (λ (m : gmap string A) kv, <[kv.1 := kv.2]> m) ∅ entries.

(** [const CORE_TOOL_BY_ID = new Map(CORE_TOOL_DEFINITIONS.map((tool) =>
    [tool.id, tool]))] *)
Definition CORE_TOOL_BY_ID : gmap string CoreToolDefinition :=
  mapOfEntries ((λ t, (id t, t)) <$> CORE_TOOL_DEFINITIONS).

(** [listCoreToolSections()] *)
Definition listCoreToolSections : list CoreToolSection :=
  List.filter (λ s, bool_decide (0 < length (section_tools s)))
    ((λ section : string * string,
        {| section_id := section.1;
           section_label := section.2;
           section_tools :=
             (λ t, {| entry_id := id t; entry_label := label t;
                      entry_description := description t |})
               <$> List.filter (λ t, String.eqb (sectionId t) section.1)
                     CORE_TOOL_DEFINITIONS |})
       <$> CORE_TOOL_SECTION_ORDER).

(** [resolveCoreToolProfiles(toolId)] *)
Definition resolveCoreToolProfiles (toolId : string) : list ToolProfileId :=
  match CORE_TOOL_BY_ID !! toolId with
  | None => []
  | Some t => profiles t
  end.

(** [isKnownCoreToolId(toolId)] *)
Definition isKnownCoreToolId (toolId : string) : bool :=
  bool_decide (is_Some (CORE_TOOL_BY_ID !! toolId)).

End Catalog.

(* ===================================================================== *)
(** ** tool-policy-shared.ts                                              *)
(* ===================================================================== *)

Module Shared.

(** [const TOOL_NAME_ALIASES: Record<string, string>] *)
Definition TOOL_NAME_ALIASES : gmap string string :=
  <["bash" := "exec"]> (<["apply-patch" := "apply_patch"]> ∅).

(** [TOOL_NAME_ALIASES[k]]: the object is a literal, so keys that are not
    aliases still reach [Object.prototype]. *)
Definition aliasOf (k : string) : option Js.value :=
  Js.get (Js.Str <$> TOOL_NAME_ALIASES) Js.Inherited k.

(** [normalizeToolName(name)]:
    [const normalized = name.trim().toLowerCase();
     return TOOL_NAME_ALIASES[normalized] ?? normalized;] *)
Definition normalizeToolName (name : string) : Js.value :=
  let normalized := Js.toLowerCase (Js.trim name) in
  match aliasOf normalized with
  | Some v => v
  | None => Js.Str normalized
  end.

(** The same call on an arbitrary value: [name.trim] exists on strings
    only, anything else raises a [TypeError] ([None]). *)
Definition normalizeToolNameOf (v : Js.value) : option Js.value :=
  match v with
  | Js.Str s => Some (normalizeToolName s)
  | Js.Inherited _ => None
  end.

(** [normalizeToolList(list)]:
    [list.map(normalizeToolName).filter(Boolean)] *)
Definition normalizeToolList (names : option (list string)) : list Js.value :=
  match names with
  | None => []
  | Some l => List.filter Js.truthy (normalizeToolName <$> l)
  end.



(** [export const TOOL_GROUPS: Record<string, string[]> =
    { ...CORE_TOOL_GROUPS }] *)
Definition TOOL_GROUPS : gmap string (list string) := Catalog.CORE_TOOL_GROUPS.

(** What [TOOL_GROUPS[value]] can be when it is not [undefined]: an array
    of tool ids, or a member inherited from [Object.prototype]. *)
Inductive groupRead : Type :=
  | GroupArray (members : list string)
  | GroupInherited (key : string).

#[global] Instance groupRead_eq_dec : EqDecision groupRead.
Proof. solve_decision. Defined.

(** [TOOL_GROUPS[value]].  A value that is not a string is converted to a
    property key first: that is the source text of a function, or
    [[object Object]], and neither names a property. *)
Definition toolGroup (value : Js.value) : option groupRead :=
  match value with
  | Js.Str s => Js.get (GroupArray <$> TOOL_GROUPS) GroupInherited s
  | Js.Inherited _ => None
  end.

(** The loop of [expandToolGroups]; [None] is the [TypeError] of spreading
    a value that is not iterable. *)
Fixpoint expandLoop (normalized : list Js.value) (expanded : list Js.value) :
    option (list Js.value) :=
  match normalized with
  | [] => Some expanded
  | value :: rest =>
      match toolGroup value with
      | Some (GroupArray group) => expandLoop rest (expanded ++ (Js.Str <$> group))
      | Some (GroupInherited _) => None
      | None => expandLoop rest (expanded ++ [value])
      end
  end.

(** [expandToolGroups(list?)] *)
Definition expandToolGroups (names : option (list string)) : option (list Js.value) :=
  Js.uniq <$> expandLoop (normalizeToolList names) [].

(** [resolveToolProfilePolicy(profile?, namedProfiles?)] *)
Definition resolveToolProfilePolicy (profile : option string)
    (namedProfiles : option (gmap string Catalog.NamedProfileInput)) :
    Catalog.outcome (option Catalog.ToolProfilePolicy) :=
  match Catalog.resolveCoreToolProfilePolicy profile with
  | Some coreResult => Catalog.Returned (Some coreResult)
  | None =>
      match profile, namedProfiles with
      | Some profile, Some namedProfiles =>
          if Js.nonEmpty profile then
            match Catalog.resolveNamedToolProfilePolicy profile namedProfiles with
            | Catalog.Returned namedResult =>
                Catalog.Returned (Catalog.policy <$> namedResult)
            | Catalog.OutOfFuel => Catalog.OutOfFuel
            end
          else Catalog.Returned None
      | _, _ => Catalog.Returned None
      end
  end.

End Shared.

(* ===================================================================== *)
(** ** What the pipeline imports: tool-policy.ts and pi-tools.policy.ts    *)
(* ===================================================================== *)

(** Modelled from the spec: [AnyAgentTool], declared in [pi-tools.types.ts],
    which is not among the sources.  The policy code reads [name] only;
    [body] stands for the rest of the tool object (schema, handler), so two
    tools may share a name. *)
Record AnyAgentTool : Type := mkAgentTool {
  name : string;
  body : nat;
}.

#[global] Instance AnyAgentTool_eq_dec : EqDecision AnyAgentTool.
Proof. solve_decision. Defined.

(** Modelled from the spec: [ToolPolicyLike], declared in [tool-policy.ts],
    which is not among the sources.  Spec 3, Policy: an optional [allow] and
    an optional [deny] list, the shape of [ToolProfilePolicy]. *)
Abbreviation ToolPolicyLike := Catalog.ToolProfilePolicy.

Module ToolPolicy.
Import Catalog.

(** Modelled from the spec: the result of [stripPluginOnlyAllowlist], spec
    4.5, with the three fields the pipeline reads. *)
Record AllowlistResolution : Type := mkResolution {
  policy : option ToolPolicyLike;
  unknownAllowlist : list string;
  strippedAllowlist : bool;
}.

(** Modelled from the spec: [PluginToolGroups], the value built by
    [buildPluginToolGroups] in [tool-policy.ts], which is not among the
    sources.  Spec 4.4: a map from ["group:plugin:<pluginId>"] to tool
    names. *)
Abbreviation PluginToolGroups := (gmap string (list string)).

(** Modelled from the spec: [buildPluginToolGroups] of [tool-policy.ts].
    Spec 4.4: a tool contributes iff [tool_meta(tool)] yields a plugin id. *)
Definition buildPluginToolGroups (tools : list AnyAgentTool)
    (toolMeta : AnyAgentTool → option string) : PluginToolGroups :=
  foldl (λ (m : gmap string (list string)) t,
           match toolMeta t with
           | Some pluginId =>
               let key := "group:plugin:" +:+ pluginId in
               <[key := default [] (m !! key) ++ [name t]]> m
           | None => m
           end) ∅ tools.

(** Modelled from the spec: the members of a known group key (built-in
    section group, openclaw group, or plugin group), spec 4.4. *)
Definition groupMembers (groups : PluginToolGroups) (entry : string) :
    option (list string) :=
  match CORE_TOOL_GROUPS !! entry with
  | Some members => Some members
  | None => groups !! entry
  end.

(** Modelled from the spec: the canonical form of a policy entry.  Spec 1:
    policies may use aliases that normalize to canonical names; spec 3:
    after expansion every entry is canonical; spec 4.1: [normalize_list]
    gives canonical ids with empties dropped.  An entry whose normal form is
    empty, or is not a string, names no tool. *)
Definition canonicalEntry (entry : string) : option string :=
  match Shared.normalizeToolName entry with
  | Js.Str s => if Js.nonEmpty s then Some s else None
  | Js.Inherited _ => None
  end.

(** Modelled from the spec: the group a policy entry refers to, spec 4.4
    and 6 (group reference syntax): the entry is a known group key, as
    written or in canonical form. *)
Definition entryGroup (groups : PluginToolGroups) (entry : string) :
    option (list string) :=
  match groupMembers groups entry with
  | Some members => Some members
  | None => canonicalEntry entry ≫= groupMembers groups
  end.

(** Modelled from the spec: what one entry expands to, spec 4.4: the
    members of the group it refers to, or else the entry itself; in
    canonical form either way (spec 3). *)
Definition expandEntry (groups : PluginToolGroups) (entry : string) : list string :=
  match entryGroup groups entry with
  | Some members => omap canonicalEntry members
  | None => match canonicalEntry entry with
            | Some canonical => [canonical]
            | None => []
            end
  end.

(** Modelled from the spec: expansion of one allow or deny list, spec 4.4:
    each entry that is a known group key is replaced by its members, other
    entries are left in place, order is preserved and duplicates are
    removed. *)
Definition expandList (groups : PluginToolGroups) (entries : list string) :
    list string :=
  Js.uniq (concat (expandEntry groups <$> entries)).

(** Modelled from the spec: a policy has content unless both lists are
    absent (spec 3, Policy: absence of both means identity). *)
Definition hasContent (p : ToolPolicyLike) : bool :=
  match allow p, deny p with
  | None, None => false
  | _, _ => true
  end.

(** Modelled from the spec: [expandPolicyWithPluginGroups] of
    [tool-policy.ts], spec 4.4 and 4.7(c,d): the policy with both lists
    expanded; nothing when there is no policy or the expanded policy has no
    content, which the pipeline leaves unfiltered. *)
Definition expandPolicyWithPluginGroups (p : option ToolPolicyLike)
    (groups : PluginToolGroups) : option ToolPolicyLike :=
  match p with
  | None => None
  | Some p =>
      let expanded := {| allow := expandList groups <$> allow p;
                         deny := expandList groups <$> deny p |} in
      if hasContent expanded then Some expanded else None
  end.

(** Modelled from the spec: the keep test of [filterToolsByPolicy] of
    [pi-tools.policy.ts], spec 4.6: with [n = normalize(tool.name)], keep
    iff ([allow] is absent or [n ∈ allow]) and [n ∉ deny]. *)
Definition isAllowed (p : ToolPolicyLike) (t : AnyAgentTool) : bool :=
  let n := Shared.normalizeToolName (name t) in
  match allow p with
  | None => true
  | Some a => bool_decide (n ∈ Js.Str <$> a)
  end
  && negb (bool_decide (n ∈ Js.Str <$> default [] (deny p))).

(** Modelled from the spec: [filterToolsByPolicy], spec 4.6; the order of
    the input is preserved. *)
Definition filterToolsByPolicy (tools : list AnyAgentTool) (p : ToolPolicyLike) :
    list AnyAgentTool :=
  List.filter (isAllowed p) tools.

(** Modelled from the spec: the classification of an allowlist entry in
    spec 4.5.  An entry is a recognized core entry when it normalizes to a
    core tool id or matches a non-plugin group key. *)
Definition recognizedCoreEntry (coreToolNames : list Js.value) (entry : string) : bool :=
  bool_decide (Shared.normalizeToolName entry ∈ coreToolNames)
  || bool_decide (is_Some (CORE_TOOL_GROUPS !! entry)).

(** Modelled from the spec: a known plugin group key, spec 4.5. *)
Definition knownPluginGroup (groups : PluginToolGroups) (entry : string) : bool :=
  bool_decide (is_Some (groups !! entry)).

(** Modelled from the spec: [stripPluginOnlyAllowlist] of [tool-policy.ts],
    spec 4.5, steps 1 to 6.  An allowlist entry that is not a recognized
    core entry is read as a reference to a plugin (a plugin group, a plugin
    tool, or a plugin that has not loaded: the configuration
    [allow: [search_web_plugin]] of the purpose paragraph, scenarios S3 and
    S4). *)
Definition stripPluginOnlyAllowlist (p : ToolPolicyLike) (groups : PluginToolGroups)
    (coreToolNames : list Js.value) : AllowlistResolution :=
  match allow p with
  | None => {| policy := Some p; unknownAllowlist := []; strippedAllowlist := false |}
  | Some a =>
      let recognized := existsb (recognizedCoreEntry coreToolNames) a in
      let unknown :=
        List.filter (λ e, negb (recognizedCoreEntry coreToolNames e)
                          && negb (knownPluginGroup groups e)) a in
      let pluginReference :=
        existsb (λ e, negb (recognizedCoreEntry coreToolNames e)) a in
      if negb recognized && pluginReference
      then {| policy := Some {| allow := None; deny := deny p |};
              unknownAllowlist := unknown; strippedAllowlist := true |}
      else {| policy := Some p; unknownAllowlist := unknown;
              strippedAllowlist := false |}
  end.

End ToolPolicy.

(* ===================================================================== *)
(** ** tool-policy-pipeline.ts                                            *)
(* ===================================================================== *)

Module Pipeline.
Import ToolPolicy(AllowlistResolution, policy, unknownAllowlist, strippedAllowlist).

(** [type ToolPolicyPipelineStep]; an absent [stripPluginOnlyAllowlist] is
    [false]. *)
Record ToolPolicyPipelineStep : Type := mkStep {
  spolicy : option ToolPolicyLike;
  slabel : string;
  sstripPluginOnlyAllowlist : bool;
}.

(** [namedProfileContext?: { profileName: string; headlineTools?: string[] }] *)
Record NamedProfileContext : Type := mkContext {
  profileName : string;
  headlineTools : option (list string);
}.

(** The four functions the module imports from [./tool-policy.js] and
    [./pi-tools.policy.js]. *)
Record Imports : Type := mkImports {
  PluginToolGroups : Type;
  buildPluginToolGroups :
    list AnyAgentTool → (AnyAgentTool → option string) → PluginToolGroups;
  stripPluginOnlyAllowlist :
    ToolPolicyLike → PluginToolGroups → list Js.value → AllowlistResolution;
  expandPolicyWithPluginGroups :
    option ToolPolicyLike → PluginToolGroups → option ToolPolicyLike;
  filterToolsByPolicy : list AnyAgentTool → ToolPolicyLike → list AnyAgentTool;
}.

(** [x?.trim()] followed by a truthiness test. *)
Definition trimmed (x : option string) : option string :=
  match Js.trim <$> x with
  | Some t => if Js.nonEmpty t then Some t else None
  | None => None
  end.

(** [buildDefaultToolPolicyPipelineSteps(params)] *)
Definition buildDefaultToolPolicyPipelineSteps
    (profilePolicy : option ToolPolicyLike) (profile : option string)
    (providerProfilePolicy : option ToolPolicyLike) (providerProfile : option string)
    (globalPolicy globalProviderPolicy agentPolicy agentProviderPolicy
       groupPolicy : option ToolPolicyLike)
    (agentId : option string) : list ToolPolicyPipelineStep :=
  [ mkStep profilePolicy
      match trimmed profile with
      | Some pr => "tools.profile (" +:+ pr +:+ ")"
      | None => "tools.profile"
      end true;
    mkStep providerProfilePolicy
      match trimmed providerProfile with
      | Some pr => "tools.byProvider.profile (" +:+ pr +:+ ")"
      | None => "tools.byProvider.profile"
      end true;
    mkStep globalPolicy "tools.allow" true;
    mkStep globalProviderPolicy "tools.byProvider.allow" true;
    mkStep agentPolicy
      match trimmed agentId with
      | Some a => "agents." +:+ a +:+ ".tools.allow"
      | None => "agent tools.allow"
      end true;
    mkStep agentProviderPolicy
      match trimmed agentId with
      | Some a => "agents." +:+ a +:+ ".tools.byProvider.allow"
      | None => "agent tools.byProvider.allow"
      end true;
    mkStep groupPolicy "group tools.allow" true ].

Section WithImports.
Variable I : Imports.

(** Lines 96-104: the warning of a step whose allowlist has unknown
    entries. *)
Definition unknownEntriesWarning (label : string) (resolved : AllowlistResolution) :
    list string :=
  if bool_decide (0 < length (unknownAllowlist resolved))%nat then
    let entries := Js.join ", " (unknownAllowlist resolved) in
    let suffix :=
      if strippedAllowlist resolved
      then "Ignoring allowlist so core tools remain available. Use tools.alsoAllow for additive plugin tool enablement."
      else "These entries won't match any tool unless the plugin is enabled." in
    [ "tools: " +:+ label +:+ " allowlist contains unknown entries ("
      +:+ entries +:+ "). " +:+ suffix ]
  else [].

(** The body of [for (const step of params.steps)], lines 88-110: the
    working list after the step and the warnings the step emits. *)
Definition applyStep (pluginGroups : PluginToolGroups I)
    (coreToolNames : list Js.value) (filtered : list AnyAgentTool)
    (step : ToolPolicyPipelineStep) : list AnyAgentTool * list string :=
  match spolicy step with
  | None => (filtered, [])
  | Some p =>
      let '(policy, warned) :=
        if sstripPluginOnlyAllowlist step then
          let resolved := stripPluginOnlyAllowlist I p pluginGroups coreToolNames in
          (policy resolved, unknownEntriesWarning (slabel step) resolved)
        else (Some p, []) in
      let expanded := expandPolicyWithPluginGroups I policy pluginGroups in
      (match expanded with
       | Some e => filterToolsByPolicy I filtered e
       | None => filtered
       end, warned)
  end.

(** The whole loop: steps in order, warnings in the order they are emitted. *)
Fixpoint runSteps (pluginGroups : PluginToolGroups I)
    (coreToolNames : list Js.value) (filtered : list AnyAgentTool)
    (steps : list ToolPolicyPipelineStep) : list AnyAgentTool * list string :=
  match steps with
  | [] => (filtered, [])
  | step :: rest =>
      let '(filtered', w) := applyStep pluginGroups coreToolNames filtered step in
      let '(out, ws) := runSteps pluginGroups coreToolNames filtered' rest in
      (out, w ++ ws)
  end.

(** Lines 75-80: [coreToolNames]. *)
Definition coreToolNamesOf (tools : list AnyAgentTool)
    (toolMeta : AnyAgentTool → option string) : list Js.value :=
  Js.uniq
    (List.filter Js.truthy
       ((λ t, Shared.normalizeToolName (name t))
          <$> List.filter (λ t, negb (bool_decide (is_Some (toolMeta t)))) tools)).

(** Lines 112-132: the warning after the loop, when there is a
    [namedProfileContext]. *)
Definition postPipelineWarnings (ctx : NamedProfileContext)
    (filtered : list AnyAgentTool) : list string :=
  let remaining := Js.uniq ((λ t, Shared.normalizeToolName (name t)) <$> filtered) in
  let headline := default [] (headlineTools ctx) in
  if bool_decide (length filtered = 0)%nat then
    [ "Named profile " +:+ Js.quoted (profileName ctx)
      +:+ " resulted in zero tools after policy filtering." ]
  else if bool_decide (length filtered = 1)%nat
          && bool_decide (Js.Str "session_status" ∈ remaining) then
    [ "Named profile " +:+ Js.quoted (profileName ctx)
      +:+ " resulted in only session_status after policy filtering." ]
  else if bool_decide (0 < length headline)%nat
          && forallb (λ t, negb (bool_decide (Shared.normalizeToolName t ∈ remaining)))
               headline then
    let removedList := Js.join ", " headline in
    let remainingList := Js.join ", " (name <$> filtered) in
    [ "Named profile " +:+ Js.quoted (profileName ctx)
      +:+ " requested headline tools [" +:+ removedList
      +:+ "], but none remain after filtering. Effective tools: "
      +:+ remainingList +:+ "." ]
  else [].

(** [applyToolPolicyPipeline(params)]: the returned list, and the
    messages passed to [params.warn], in order. *)
Definition applyToolPolicyPipeline (tools : list AnyAgentTool)
    (toolMeta : AnyAgentTool → option string)
    (steps : list ToolPolicyPipelineStep)
    (namedProfileContext : option NamedProfileContext) :
    list AnyAgentTool * list string :=
  let coreToolNames := coreToolNamesOf tools toolMeta in
  let pluginGroups := buildPluginToolGroups I tools toolMeta in
  let '(filtered, warned) := runSteps pluginGroups coreToolNames tools steps in
  (filtered,
   warned ++ match namedProfileContext with
             | Some ctx => postPipelineWarnings ctx filtered
             | None => []
             end).

End WithImports.

End Pipeline.

(** The imports as the spec describes them. *)
Definition specImports : Pipeline.Imports :=
  {| Pipeline.PluginToolGroups := gmap string (list string);
     Pipeline.buildPluginToolGroups := ToolPolicy.buildPluginToolGroups;
     Pipeline.stripPluginOnlyAllowlist := ToolPolicy.stripPluginOnlyAllowlist;
     Pipeline.expandPolicyWithPluginGroups := ToolPolicy.expandPolicyWithPluginGroups;
     Pipeline.filterToolsByPolicy := ToolPolicy.filterToolsByPolicy |}.

(** The pipeline of the repository. *)
Definition applyToolPolicyPipeline := Pipeline.applyToolPolicyPipeline specImports.

(* ===================================================================== *)
(** ** commands-tools-reset.ts                                            *)
(* ===================================================================== *)

Module Reset.

(** Modelled from the spec: the type of [toolsPromptListingOverride],
    declared in [config/sessions/types.ts], which is not among the sources.
    Spec 6: ["full" | "names" | "off" | null]. *)
Inductive PromptListing : Set := ListingFull | ListingNames | ListingOff.

#[global] Instance PromptListing_eq_dec : EqDecision PromptListing.
Proof. solve_decision. Defined.

(** Modelled from the spec: the session record of
    [config/sessions/types.ts], spec 3 and 6: the four override fields,
    each of which may be absent; [otherFields] stands for what else the
    record carries, which a write preserves. *)
Record SessionEntry : Type := mkEntry {
  toolsProfileOverride : option string;
  toolsAllowOverride : option (list string);
  toolsDenyOverride : option (list string);
  toolsPromptListingOverride : option PromptListing;
  otherFields : list (string * string);
}.

#[global] Instance SessionEntry_eq_dec : EqDecision SessionEntry.
Proof. solve_decision. Defined.

(** The session stores: one record per store path and session key. *)
Abbreviation Stores := (gmap (string * string) SessionEntry).

Definition emptyEntry : SessionEntry := mkEntry None None None None [].

(** Modelled from the spec: [updateSessionStoreEntry] of
    [config/sessions/store.ts], spec 4.9: load the current record (or
    construct empty), apply the mutator function, write. *)
Definition updateSessionStoreEntry (stores : Stores) (storePath sessionKey : string)
    (update : SessionEntry → SessionEntry) : Stores :=
  let existing := default emptyEntry (stores !! (storePath, sessionKey)) in
  <[(storePath, sessionKey) := update existing]> stores.

(** The assignments of lines 35-41 and of lines 45-48: the four override
    fields become [undefined], the rest of the record is kept. *)
Definition clearOverrides (existing : SessionEntry) : SessionEntry :=
  {| toolsProfileOverride := None;
     toolsAllowOverride := None;
     toolsDenyOverride := None;
     toolsPromptListingOverride := None;
     otherFields := otherFields existing |}.

Record Command : Type := mkCommand {
  commandBodyNormalized : string;
  isAuthorizedSender : bool;
}.

Record Params : Type := mkParams {
  command : Command;
  storePath : option string;
  sessionKey : option string;
  sessionEntry : option SessionEntry;
}.

(** [CommandHandlerResult]: [reply] is the text of the reply, if any. *)
Record CommandHandlerResult : Type := mkResult {
  reply : option string;
  shouldContinue : bool;
}.

(** A string that is defined and not empty. *)
Definition truthyString (x : option string) : option string :=
  match x with
  | Some s => if Js.nonEmpty s then Some s else None
  | None => None
  end.

(** [entry?.xs?.length], read as a condition. *)
Definition truthyLength (xs : option (list string)) : bool :=
  match xs with
  | Some l => bool_decide (0 < length l)%nat
  | None => false
  end.

(** Lines 25-30: [hadOverrides]. *)
Definition hadOverrides (entry : option SessionEntry) : bool :=
  match entry with
  | None => false
  | Some e =>
      bool_decide (is_Some (truthyString (toolsProfileOverride e)))
      || truthyLength (toolsAllowOverride e)
      || truthyLength (toolsDenyOverride e)
      || bool_decide (is_Some (toolsPromptListingOverride e))
  end.

(** [handleToolsResetCommand(params, allowTextCommands)] on the session
    stores [stores]: the result ([None] is [null]), the stores after the
    call, and [params] after the call, whose [sessionEntry] object the
    handler updates in place. *)
Definition handleToolsResetCommand (params : Params) (allowTextCommands : bool)
    (stores : Stores) : option CommandHandlerResult * (Stores * Params) :=
  if negb allowTextCommands then (None, (stores, params))
  else
    let normalized := commandBodyNormalized (command params) in
    if negb (String.eqb normalized "/tools:reset") then (None, (stores, params))
    else if negb (isAuthorizedSender (command params)) then
      (Some {| reply := None; shouldContinue := false |}, (stores, params))
    else
      match truthyString (storePath params), truthyString (sessionKey params) with
      | Some path, Some key =>
          let entry := sessionEntry params in
          let hadOverrides := hadOverrides entry in
          let stores' := updateSessionStoreEntry stores path key clearOverrides in
          let params' :=
            {| command := command params; storePath := storePath params;
               sessionKey := sessionKey params;
               sessionEntry := clearOverrides <$> sessionEntry params |} in
          let message :=
            if hadOverrides
            then "Tool overrides cleared. Tools restored to config baseline."
            else "No tool overrides were active." in
          (Some {| reply := Some message; shouldContinue := false |},
           (stores', params'))
      | _, _ =>
          (Some {| reply := Some "Cannot reset tool overrides: no active session.";
                   shouldContinue := false |}, (stores, params))
      end.

End Reset.

(* ===================================================================== *)
(** ** The properties, in the words of the specification                  *)
(* ===================================================================== *)

Module Spec.
Import Catalog.

(** The catalog tool ids whose [profiles] contain the profile called [n]. *)
Definition catalogIdsOf (n : string) : list string :=
  id <$> List.filter (λ t, bool_decide (n ∈ profileIdName <$> profiles t))
           CORE_TOOL_DEFINITIONS.

(** [dedup]: every element once, at its first position. *)
Fixpoint dedup (xs : list string) : list string :=
  match xs with
  | [] => []
  | x :: rest => x :: List.filter (λ y, negb (String.eqb y x)) (dedup rest)
  end.

(** What a name of the chain contributes: the first name is the profile
    asked for; a later name is a built-in profile, or else a named one. *)
Definition linkOf (namedProfiles : gmap string NamedProfileInput) (n : string) :
    NamedProfileInput :=
  match coreProfile n with
  | Some builtIn => mkNamed None (allow builtIn) (deny builtIn)
  | None => default (mkNamed None None None) (namedProfile namedProfiles n)
  end.

Definition links (namedProfiles : gmap string NamedProfileInput)
    (chain : list string) : list NamedProfileInput :=
  match chain with
  | [] => []
  | n :: parents =>
      default (mkNamed None None None) (namedProfile namedProfiles n)
        :: (linkOf namedProfiles <$> parents)
  end.

(** What the walk gathers when it runs on [current] and then follows
    [parents]. *)
Definition gathered (namedProfiles : gmap string NamedProfileInput)
    (current : option NamedProfileInput) (parents : list string) :
    list NamedProfileInput :=
  match current with
  | Some cur => cur :: (linkOf namedProfiles <$> parents)
  | None => []
  end.

(** [all_allow] and [all_deny]: the lists of the chain, concatenated. *)
Definition allAllowOf (ls : list NamedProfileInput) : list string :=
  concat ((λ l, default [] (nallow l)) <$> ls).
Definition allDenyOf (ls : list NamedProfileInput) : list string :=
  concat ((λ l, default [] (ndeny l)) <$> ls).

(** The parents visited after a profile: follow [extends] while the parent
    is new and fewer than [room] names remain to be added; a built-in
    parent is the last name. *)
Fixpoint parentsOf (room : nat) (namedProfiles : gmap string NamedProfileInput)
    (seen : list string) (current : option NamedProfileInput) : list string :=
  match room, current with
  | S room', Some cur =>
      match extends cur with
      | Some parent =>
          if Js.nonEmpty parent && negb (bool_decide (parent ∈ seen)) then
            parent ::
              match coreProfile parent with
              | Some _ => []
              | None => parentsOf room' namedProfiles (seen ++ [parent])
                          (namedProfile namedProfiles parent)
              end
          else []
      | None => []
      end
  | _, _ => []
  end.

(** The state the loop reaches from the variables [w] and [current]. *)
Definition reached (namedProfiles : gmap string NamedProfileInput)
    (w : Walk) (current : option NamedProfileInput) : Walk :=
  let parents :=
    parentsOf (MAX_EXTENDS_DEPTH - length (chain w)) namedProfiles (chain w) current in
  let ls := gathered namedProfiles current parents in
  {| chain := chain w ++ parents;
     visited := list_to_set (chain w ++ parents);
     allAllow := allAllow w ++ allAllowOf ls;
     allDeny := allDeny w ++ allDenyOf ls |}.

(** The chain of a profile name: at most [MAX_EXTENDS_DEPTH] names. *)
Definition chainOf (namedProfiles : gmap string NamedProfileInput)
    (profileName : string) : list string :=
  profileName ::
    parentsOf (MAX_EXTENDS_DEPTH - 1) namedProfiles [profileName]
      (namedProfile namedProfiles profileName).

(** Spec 4.3, steps 7 and 8. *)
Definition effective_allow (all_allow all_deny : list string) : list string :=
  List.filter (λ t, negb (bool_decide (t ∈ all_deny))) (dedup all_allow).
Definition effective_deny (all_deny : list string) : list string :=
  dedup all_deny.

(** The post-filter warning of spec 4.7, step 4, by priority. *)
Definition survives (filtered : list AnyAgentTool) (entry : string) : Prop :=
  ∃ t, t ∈ filtered
       ∧ Shared.normalizeToolName (name t) = Shared.normalizeToolName entry.

Definition onlySessionStatus (filtered : list AnyAgentTool) : Prop :=
  length filtered = 1%nat
  ∧ ∃ t, t ∈ filtered
         ∧ Shared.normalizeToolName (name t) = Js.Str "session_status".

Definition headlineLost (ctx : Pipeline.NamedProfileContext)
    (filtered : list AnyAgentTool) : Prop :=
  ∃ headline, Pipeline.headlineTools ctx = Some headline ∧ headline ≠ []
              ∧ ∀ h, h ∈ headline → ¬ survives filtered h.

Inductive PostWarning (ctx : Pipeline.NamedProfileContext)
    (filtered : list AnyAgentTool) : list string → Prop :=
  | ZeroTools :
      filtered = [] →
      PostWarning ctx filtered
        [ "Named profile " +:+ Js.quoted (Pipeline.profileName ctx)
          +:+ " resulted in zero tools after policy filtering." ]
  | OnlySessionStatus :
      filtered ≠ [] → onlySessionStatus filtered →
      PostWarning ctx filtered
        [ "Named profile " +:+ Js.quoted (Pipeline.profileName ctx)
          +:+ " resulted in only session_status after policy filtering." ]
  | HeadlineLoss :
      filtered ≠ [] → ¬ onlySessionStatus filtered → headlineLost ctx filtered →
      PostWarning ctx filtered
        [ "Named profile " +:+ Js.quoted (Pipeline.profileName ctx)
          +:+ " requested headline tools ["
          +:+ Js.join ", " (default [] (Pipeline.headlineTools ctx))
          +:+ "], but none remain after filtering. Effective tools: "
          +:+ Js.join ", " (name <$> filtered) +:+ "." ]
  | NoPostWarning :
      filtered ≠ [] → ¬ onlySessionStatus filtered → ¬ headlineLost ctx filtered →
      PostWarning ctx filtered [].

(** The deny list of a step after group expansion (spec 4.4). *)
Definition expandedDeny (groups : gmap string (list string))
    (step : Pipeline.ToolPolicyPipelineStep) : list string :=
  match Pipeline.spolicy step with
  | Some p => ToolPolicy.expandList groups (default [] (deny p))
  | None => []
  end.

(** The policy entry [entry] names the tool [t] (after normalization): a
    reference to a group names the members of the group, any other entry
    names the tool whose normalized name is its canonical form. *)
Definition entryNames (groups : gmap string (list string)) (entry : string)
    (t : AnyAgentTool) : Prop :=
  match ToolPolicy.entryGroup groups entry with
  | Some members =>
      ∃ m, m ∈ members
           ∧ Js.Str <$> ToolPolicy.canonicalEntry m
             = Some (Shared.normalizeToolName (name t))
  | None =>
      Js.Str <$> ToolPolicy.canonicalEntry entry
      = Some (Shared.normalizeToolName (name t))
  end.

(** The deny list of the step names the tool [t] (after normalization). *)
Definition denyNames (groups : gmap string (list string))
    (step : Pipeline.ToolPolicyPipelineStep) (t : AnyAgentTool) : Prop :=
  ∃ p d e, Pipeline.spolicy step = Some p ∧ deny p = Some d ∧ e ∈ d
           ∧ entryNames groups e t.

(** At least one of the four override fields of the record is set. *)
Definition anyOverrideSet (e : Reset.SessionEntry) : Prop :=
  is_Some (Reset.toolsProfileOverride e) ∨ is_Some (Reset.toolsAllowOverride e)
  ∨ is_Some (Reset.toolsDenyOverride e)
  ∨ is_Some (Reset.toolsPromptListingOverride e).

(** At least one override field holds a value that counts: a profile name
    that is not empty, a list with an entry, or a listing mode. *)
Definition anyOverrideActive (e : Reset.SessionEntry) : Prop :=
  (∃ s, Reset.toolsProfileOverride e = Some s ∧ s ≠ EmptyString)
  ∨ (∃ l, Reset.toolsAllowOverride e = Some l ∧ l ≠ [])
  ∨ (∃ l, Reset.toolsDenyOverride e = Some l ∧ l ≠ [])
  ∨ is_Some (Reset.toolsPromptListingOverride e).

(** What one normalized entry contributes to [expandToolGroups]: the
    members of the group it names, or itself. *)
Definition expandOne (value : Js.value) : list Js.value :=
  match Shared.toolGroup value with
  | Some (Shared.GroupArray group) => Js.Str <$> group
  | _ => [value]
  end.

(** The step carries a policy. *)
Definition hasPolicy (step : Pipeline.ToolPolicyPipelineStep) : bool :=
  bool_decide (is_Some (Pipeline.spolicy step)).

(** The step carries a policy and asks for the allowlist safety filter. *)
Definition mayWarn (step : Pipeline.ToolPolicyPipelineStep) : bool :=
  hasPolicy step && Pipeline.sstripPluginOnlyAllowlist step.

(** The three guards of the reset command hold: text commands are allowed,
    the body is [/tools:reset], and the sender is authorized. *)
Definition resetAccepted (params : Reset.Params) (allowTextCommands : bool) : Prop :=
  allowTextCommands = true
  ∧ Reset.commandBodyNormalized (Reset.command params) = "/tools:reset"
  ∧ Reset.isAuthorizedSender (Reset.command params) = true.

(** The call names a session: a store path and a session key, not empty. *)
Definition hasSession (params : Reset.Params) : Prop :=
  is_Some (Reset.truthyString (Reset.storePath params))
  ∧ is_Some (Reset.truthyString (Reset.sessionKey params)).

(** A [/tools:reset] command of an authorized sender in the session [key] of
    the store at [path]. *)
Definition resetParams (path key : string) (entry : option Reset.SessionEntry) :
    Reset.Params :=
  Reset.mkParams (Reset.mkCommand "/tools:reset" true) (Some path) (Some key) entry.

Definition replied (text : string) : option Reset.CommandHandlerResult :=
  Some (Reset.mkResult (Some text) false).

End Spec.

(* ===================================================================== *)
(** ** Sample inputs                                                      *)
(* ===================================================================== *)

Module Sample.
Import Catalog.

(** Two profiles that extend each other. *)
Definition cyclic : gmap string NamedProfileInput :=
  <["a" := mkNamed (Some "b") (Some ["read"; "exec"]) (Some ["exec"])]>
  (<["b" := mkNamed (Some "a") (Some ["write"; "read"]) None]> ∅).

(** A chain of seven profiles, [p1] extends [p2] extends ... [p7]. *)
Definition long : gmap string NamedProfileInput :=
  <["p1" := mkNamed (Some "p2") (Some ["t1"]) None]>
  (<["p2" := mkNamed (Some "p3") (Some ["t2"]) None]>
  (<["p3" := mkNamed (Some "p4") (Some ["t3"]) None]>
  (<["p4" := mkNamed (Some "p5") (Some ["t4"]) None]>
  (<["p5" := mkNamed (Some "p6") (Some ["t5"]) None]>
  (<["p6" := mkNamed (Some "p7") (Some ["t6"]) None]>
  (<["p7" := mkNamed None (Some ["t7"]) None]> ∅)))))).

(** Five profiles in a chain, the fifth of which extends the built-in
    [minimal]. *)
Definition deep : gmap string NamedProfileInput :=
  <["q1" := mkNamed (Some "q2") (Some ["t1"]) None]>
  (<["q2" := mkNamed (Some "q3") (Some ["t2"]) None]>
  (<["q3" := mkNamed (Some "q4") (Some ["t3"]) None]>
  (<["q4" := mkNamed (Some "q5") (Some ["t4"]) None]>
  (<["q5" := mkNamed (Some "minimal") (Some ["t5"]) None]> ∅)))).

(** The state of the walk on [deep] when it reads [q5]. *)
Definition deepAtQ5 : Walk :=
  mkWalk ["q1"; "q2"; "q3"; "q4"; "q5"] (list_to_set ["q1"; "q2"; "q3"; "q4"; "q5"])
    ["t1"; "t2"; "t3"; "t4"] [].

(** A user profile called [minimal] that extends [minimal]. *)
Definition selfMinimal : gmap string NamedProfileInput :=
  <["minimal" := mkNamed (Some "minimal") (Some ["read"]) None]> ∅.

(** A profile on top of the built-in [minimal]. *)
Definition onMinimal : gmap string NamedProfileInput :=
  <["support" := mkNamed (Some "minimal") (Some ["message"]) (Some ["exec"])]> ∅.

(** A user profile called like a built-in one, and a profile extending that
    name. *)
Definition shadowed : gmap string NamedProfileInput :=
  <["coding" := mkNamed None (Some ["exec"]) (Some ["read"])]>
  (<["dev" := mkNamed (Some "coding") None (Some ["exec"])]> ∅).

(** A profile that only extends a built-in one, one that extends itself and
    one that extends a name nobody defines. *)
Definition plainChild : gmap string NamedProfileInput :=
  <["chat" := mkNamed (Some "messaging") None None]>
  (<["loop" := mkNamed (Some "loop") (Some ["read"]) None]>
  (<["orphan" := mkNamed (Some "nowhere") (Some ["read"]) (Some ["exec"])]> ∅)).

(** A profile whose [extends] is the empty string, and a profile called
    [coding] that extends [coding]. *)
Definition blankExtends : gmap string NamedProfileInput :=
  <["blank" := mkNamed (Some EmptyString) None (Some ["exec"])]> ∅.
Definition selfCoding : gmap string NamedProfileInput :=
  <["coding" := mkNamed (Some "coding") None None]> ∅.

(** A profile that denies everything it allows. *)
Definition selfDenied : gmap string NamedProfileInput :=
  <["locked" := mkNamed None (Some ["exec"; "read"]) (Some ["read"; "exec"; "write"])]> ∅.

Definition toolNamed (n : string) : AnyAgentTool := mkAgentTool n 0.

(** A step that denies the section group [group:fs]. *)
Definition denyFsGroup : Pipeline.ToolPolicyPipelineStep :=
  Pipeline.mkStep (Some (mkPolicy None (Some ["group:fs"]))) "session override" false.

(** A step that denies [exec] under its alias, in capitals, and the group
    [group:fs] in capitals. *)
Definition denyAlias : Pipeline.ToolPolicyPipelineStep :=
  Pipeline.mkStep (Some (mkPolicy None (Some [" BASH "; "GROUP:FS"]))) "sandbox" false.

(** A step that denies [exec] and a later step that allows it. *)
Definition denyExec : Pipeline.ToolPolicyPipelineStep :=
  Pipeline.mkStep (Some (mkPolicy None (Some ["exec"; "write"]))) "sandbox" false.
Definition allowExec : Pipeline.ToolPolicyPipelineStep :=
  Pipeline.mkStep (Some (mkPolicy (Some ["read"; "exec"; "write"; "message"]) None))
    "session override" true.

Definition noMeta : AnyAgentTool → option string := λ _, None.

(** The fixtures of [tool-policy-pipeline.test.ts]. *)
Definition names (r : list AnyAgentTool * list string) : list string := name <$> fst r.
Definition allTools : list AnyAgentTool :=
  toolNamed <$> ["read"; "write"; "exec"; "message"; "session_status"; "web_search"; "grep"].
Definition threeTools : list AnyAgentTool :=
  toolNamed <$> ["read"; "exec"; "session_status"].
Definition step (a d : option (list string)) (l : string) : Pipeline.ToolPolicyPipelineStep :=
  Pipeline.mkStep (Some (mkPolicy a d)) l false.

(** Session records: scenario S6 of the specification, and a record whose
    only override is an empty allow list. *)
Definition overridden : Reset.SessionEntry :=
  Reset.mkEntry (Some "coding") (Some ["read"]) None None [("model", "default")].
Definition emptyAllow : Reset.SessionEntry :=
  Reset.mkEntry None (Some []) None None [].

End Sample.

(* ===================================================================== *)
(** ** The name normalizer                                                *)
(* ===================================================================== *)

Section Normalizer.
Import Js Shared.

Local Ltac by_cases_on_char c :=
  destruct c as [[] [] [] [] [] [] [] []]; vm_compute; reflexivity.

Lemma isWhiteSpace_lowerChar c : isWhiteSpace (lowerChar c) = isWhiteSpace c.
Proof. by_cases_on_char c. Qed.

Lemma lowerChar_idem c : lowerChar (lowerChar c) = lowerChar c.
Proof. by_cases_on_char c. Qed.

Lemma toLowerCase_idem s : toLowerCase (toLowerCase s) = toLowerCase s.
Proof. induction s as [|c s IH]; simpl; [done|]. by rewrite lowerChar_idem, IH. Qed.

Lemma trimStart_toLowerCase s : trimStart (toLowerCase s) = toLowerCase (trimStart s).
Proof.
  induction s as [|c s IH]; simpl; [done|].
  rewrite isWhiteSpace_lowerChar. by destruct (isWhiteSpace c).
Qed.

Lemma trimEnd_toLowerCase s : trimEnd (toLowerCase s) = toLowerCase (trimEnd s).
Proof.
  induction s as [|c s IH]; simpl; [done|].
  rewrite IH, isWhiteSpace_lowerChar.
  destruct (trimEnd s); simpl; [by destruct (isWhiteSpace c)|done].
Qed.

Lemma trimStart_fixed c s : isWhiteSpace c = false → trimStart (String c s) = String c s.
Proof. intros H. simpl. by rewrite H. Qed.

Lemma trimStart_shape s :
  trimStart s = EmptyString
  ∨ ∃ c r, trimStart s = String c r ∧ isWhiteSpace c = false.
Proof.
  induction s as [|c s IH]; simpl; [by left|].
  destruct (isWhiteSpace c) eqn:E; [done|]. right. by exists c, s.
Qed.

Lemma trimEnd_idem s : trimEnd (trimEnd s) = trimEnd s.
Proof.
  induction s as [|c s IH]; simpl; [done|].
  destruct (trimEnd s) as [|c' r] eqn:E.
  - destruct (isWhiteSpace c) eqn:W; simpl; [done|]. by rewrite W.
  - simpl in *. by rewrite IH.
Qed.

Lemma trimEnd_keeps_head c s :
  isWhiteSpace c = false → ∃ r, trimEnd (String c s) = String c r.
Proof.
  intros W. simpl. destruct (trimEnd s); [rewrite W|]; eauto.
Qed.

Lemma trim_idem s : trim (trim s) = trim s.
Proof.
  unfold trim. destruct (trimStart_shape s) as [->|(c & r & -> & W)]; [done|].
  destruct (trimEnd_keeps_head c r W) as [r' E].
  rewrite E, (trimStart_fixed c r' W), <- E. apply trimEnd_idem.
Qed.

Lemma trim_toLowerCase s : trim (toLowerCase s) = toLowerCase (trim s).
Proof. unfold trim. by rewrite trimStart_toLowerCase, trimEnd_toLowerCase. Qed.

(** [x.trim().toLowerCase()] is a fixed point of itself. *)
Lemma canonical_idem s :
  toLowerCase (trim (toLowerCase (trim s))) = toLowerCase (trim s).
Proof. by rewrite trim_toLowerCase, trim_idem, toLowerCase_idem. Qed.

Lemma aliasOf_cases k :
  (k = "bash" ∧ aliasOf k = Some (Str "exec"))
  ∨ (k = "apply-patch" ∧ aliasOf k = Some (Str "apply_patch"))
  ∨ (isInherited k = true ∧ aliasOf k = Some (Inherited k))
  ∨ (isInherited k = false ∧ aliasOf k = None).
Proof.
  unfold aliasOf, Js.get, TOOL_NAME_ALIASES.
  destruct (decide (k = "bash")) as [->|N1]; [by left|].
  destruct (decide (k = "apply-patch")) as [->|N2]; [by right; left|].
  right; right.
  rewrite lookup_fmap, lookup_insert_ne, lookup_insert_ne, lookup_empty by done.
  simpl. destruct (isInherited k); [by left|by right].
Qed.

(** Whenever the result is a string, it is its own normal form. *)
Lemma normalizeToolName_idempotent_on_strings x s :
  normalizeToolName x = Str s → normalizeToolName s = Str s.
Proof.
  unfold normalizeToolName at 1.
  destruct (aliasOf_cases (toLowerCase (trim x))) as [[_ E]|[[_ E]|[[_ E]|[_ E]]]];
    rewrite E.
  - intros [= <-]. vm_compute. reflexivity.
  - intros [= <-]. vm_compute. reflexivity.
  - discriminate.
  - intros [= <-]. unfold normalizeToolName. by rewrite canonical_idem, E.
Qed.

(** The two aliases, and the order of the steps: trim, lower case, alias. *)
Lemma normalizeToolName_steps x :
  normalizeToolName x = default (Str (toLowerCase (trim x))) (aliasOf (toLowerCase (trim x)))
  ∧ normalizeToolName "bash" = Str "exec"
  ∧ normalizeToolName "apply-patch" = Str "apply_patch".
Proof.
  split; [|split; vm_compute; reflexivity].
  unfold normalizeToolName. by destruct (aliasOf _).
Qed.

(** C6 (the code at the input that breaks the idempotence law): the
    alias table is an object literal, so [TOOL_NAME_ALIASES["constructor"]]
    is the inherited [Object] function and [??] keeps it;
    [normalizeToolName("constructor")] is therefore not a string, and
    normalizing it once more raises a [TypeError] instead of returning the
    same value. *)
Theorem normalizeToolName_constructor_escapes :
  normalizeToolName "constructor" = Inherited "constructor"
  ∧ normalizeToolNameOf (normalizeToolName "constructor") = None
  ∧ normalizeToolNameOf (normalizeToolName "constructor")
      ≠ Some (normalizeToolName "constructor").
Proof. repeat split; vm_compute; [reflexivity..|discriminate]. Qed.

End Normalizer.

(* ===================================================================== *)
(** ** Built-in profiles                                                  *)
(* ===================================================================== *)

Section BuiltIn.
Import Catalog.

Lemma coreProfile_other n :
  n ∉ ["minimal"; "coding"; "messaging"] →
  coreProfile n = None ∨ coreProfile n = Some (mkPolicy None None).
Proof.
  intros N. unfold coreProfile, Js.get, CORE_TOOL_PROFILES.
  rewrite !lookup_insert_ne by (intros <-; apply N; set_solver).
  destruct (decide (n = "full")) as [->|F]; [by right|].
  rewrite lookup_insert_ne, lookup_empty by done.
  destruct (Js.isInherited n); [by right|by left].
Qed.

(** C7: [resolveCoreToolProfilePolicy] returns, for [minimal], [coding]
    and [messaging], the policy whose allow list is exactly the catalog
    tool ids whose profiles contain that id, with no deny list; for
    [full], for any other name and for no name it returns nothing. *)
Theorem resolveCoreToolProfilePolicy_catalog (n : string) :
  resolveCoreToolProfilePolicy (Some n)
    = (if bool_decide (n ∈ ["minimal"; "coding"; "messaging"])
       then Some {| allow := Some (Spec.catalogIdsOf n); deny := None |}
       else None)
  ∧ resolveCoreToolProfilePolicy (Some "full") = None
  ∧ resolveCoreToolProfilePolicy None = None.
Proof.
  split; [|split; vm_compute; reflexivity].
  case_bool_decide as H.
  - repeat (apply elem_of_cons in H as [->|H]; [vm_compute; reflexivity|]).
    by apply elem_of_nil in H.
  - unfold resolveCoreToolProfilePolicy.
    destruct (Js.nonEmpty n); simpl; [|done].
    by destruct (coreProfile_other n H) as [->| ->].
Qed.

End BuiltIn.

(* ===================================================================== *)
(** ** Named profiles: the walk along [extends]                           *)
(* ===================================================================== *)

Section NamedWalk.
Import Catalog.
Variable namedProfiles : gmap string NamedProfileInput.

Lemma pushAll_app acc xs : pushAll acc xs = acc ++ default [] xs.
Proof. destruct xs; simpl; [done|by rewrite app_nil_r]. Qed.

Lemma parentsOf_length room seen current :
  length (Spec.parentsOf room namedProfiles seen current) ≤ room.
Proof.
  revert seen current. induction room as [|room IH]; intros seen [cur|]; simpl; try lia.
  destruct (extends cur) as [parent|]; simpl; [|lia].
  destruct (Js.nonEmpty parent && negb (bool_decide (parent ∈ seen))); simpl; [|lia].
  destruct (coreProfile parent); simpl; [lia|].
  specialize (IH (seen ++ [parent]) (namedProfile namedProfiles parent)). lia.
Qed.

Lemma parentsOf_NoDup room seen current :
  NoDup seen → NoDup (seen ++ Spec.parentsOf room namedProfiles seen current).
Proof.
  revert seen current.
  induction room as [|room IH]; intros seen [cur|] ND; simpl;
    rewrite ?app_nil_r; try done.
  destruct (extends cur) as [parent|]; simpl; rewrite ?app_nil_r; [|done].
  destruct (Js.nonEmpty parent); simpl; rewrite ?app_nil_r; [|done].
  case_bool_decide as Hin; simpl; rewrite ?app_nil_r; [done|].
  assert (NoDup (seen ++ [parent])) as ND'.
  { apply NoDup_app. repeat split; [done| |apply NoDup_singleton].
    intros x Hx ->%list_elem_of_singleton. done. }
  destruct (coreProfile parent); [done|].
  rewrite cons_middle, app_assoc. by apply IH.
Qed.

Lemma walk_done fuel w : walk fuel namedProfiles w None = Some w.
Proof. by destruct fuel. Qed.

Lemma list_to_set_snoc (c : list string) (parent : string) :
  ({[parent]} ∪ list_to_set c : gset string) = list_to_set (c ++ [parent]).
Proof.
  apply leibniz_equiv, set_equiv. intros x.
  rewrite elem_of_union, !elem_of_list_to_set, elem_of_app, elem_of_singleton,
    list_elem_of_singleton.
  tauto.
Qed.

Lemma allAllowOf_cons l ls :
  Spec.allAllowOf (l :: ls) = default [] (nallow l) ++ Spec.allAllowOf ls.
Proof. done. Qed.

Lemma allDenyOf_cons l ls :
  Spec.allDenyOf (l :: ls) = default [] (ndeny l) ++ Spec.allDenyOf ls.
Proof. done. Qed.

Lemma reached_None w :
  visited w = list_to_set (chain w) → Spec.reached namedProfiles w None = w.
Proof.
  intros Hv. destruct w as [c v a d]; simpl in *. subst v. unfold Spec.reached; simpl.
  destruct (MAX_EXTENDS_DEPTH - length c); simpl; by rewrite !app_nil_r.
Qed.

(** The loop stops on [cur]: only the lists of [cur] are added. *)
Lemma reached_stop c a d cur :
  Spec.parentsOf (MAX_EXTENDS_DEPTH - length c) namedProfiles c (Some cur) = [] →
  Spec.reached namedProfiles (mkWalk c (list_to_set c) a d) (Some cur)
  = mkWalk c (list_to_set c) (pushAll a (nallow cur)) (pushAll d (ndeny cur)).
Proof.
  intros E. unfold Spec.reached; simpl. rewrite E; simpl.
  rewrite !pushAll_app, !app_nil_r.
  by rewrite allAllowOf_cons, allDenyOf_cons; simpl; rewrite !app_nil_r.
Qed.

Lemma walk_reaches fuel : ∀ w current,
  visited w = list_to_set (chain w) →
  length (chain w) ≤ MAX_EXTENDS_DEPTH →
  MAX_EXTENDS_DEPTH < fuel + length (chain w) →
  walk fuel namedProfiles w current = Some (Spec.reached namedProfiles w current).
Proof.
  induction fuel as [|fuel IH]; intros w current Hv Hlen Hfuel; [lia|].
  destruct current as [cur|]; [|by rewrite walk_done, reached_None].
  simpl. unfold walkBody.
  destruct w as [c v a d]; simpl in *. subst v.
  destruct (extends cur) as [parent|] eqn:Eext.
  2:{ rewrite walk_done, reached_stop; [done|].
      destruct (MAX_EXTENDS_DEPTH - length c); simpl; by rewrite ?Eext. }
  destruct (Js.nonEmpty parent) eqn:Etruthy; simpl.
  2:{ rewrite walk_done, reached_stop; [done|].
      destruct (MAX_EXTENDS_DEPTH - length c); simpl; by rewrite ?Eext, ?Etruthy. }
  case_bool_decide as Hseen.
  { rewrite walk_done, reached_stop; [done|].
    destruct (MAX_EXTENDS_DEPTH - length c); simpl; [done|].
    rewrite Eext, Etruthy. rewrite bool_decide_eq_true_2; [done|].
    by apply elem_of_list_to_set in Hseen. }
  case_bool_decide as Hfull.
  { rewrite walk_done, reached_stop; [done|].
    by replace (MAX_EXTENDS_DEPTH - length c) with 0 by lia. }
  assert (Hnew : parent ∉ c) by (by rewrite <- (elem_of_list_to_set (C:=gset string))).
  destruct (MAX_EXTENDS_DEPTH - length c) as [|room] eqn:Eroom; [lia|].
  assert (room = MAX_EXTENDS_DEPTH - length (c ++ [parent])) as Hroom
    by (rewrite length_app; simpl; lia).
  destruct (coreProfile parent) as [builtIn|] eqn:Ecore.
  - rewrite walk_done. f_equal. unfold Spec.reached; simpl.
    rewrite Eroom; simpl. rewrite Eext, Etruthy, bool_decide_eq_false_2 by done; simpl.
    rewrite Ecore; simpl.
    rewrite allAllowOf_cons, allDenyOf_cons. unfold Spec.linkOf. rewrite Ecore.
    rewrite allAllowOf_cons, allDenyOf_cons; simpl.
    rewrite !pushAll_app, !app_nil_r, <- !app_assoc.
    f_equal. apply list_to_set_snoc.
  - rewrite IH; simpl; [|apply list_to_set_snoc|rewrite length_app; simpl; lia..].
    f_equal. unfold Spec.reached; simpl.
    rewrite Eroom, <- Hroom; simpl.
    rewrite Eext, Etruthy, bool_decide_eq_false_2 by done; simpl.
    rewrite Ecore. rewrite <- !app_assoc; simpl.
    rewrite !pushAll_app, <- !app_assoc.
    rewrite (allAllowOf_cons cur), (allDenyOf_cons cur).
    rewrite (allAllowOf_cons (Spec.linkOf _ parent)), (allDenyOf_cons (Spec.linkOf _ parent)).
    unfold Spec.linkOf at 1 3. rewrite Ecore.
    destruct (namedProfile namedProfiles parent) as [nxt|] eqn:Enxt; simpl.
    + by rewrite allAllowOf_cons, allDenyOf_cons.
    + destruct room; simpl; done.
Qed.

Lemma filter_filter_andb {A} (f g : A → bool) (l : list A) :
  List.filter f (List.filter g l) = List.filter (λ x, g x && f x) l.
Proof.
  induction l as [|x l IH]; simpl; [done|].
  destruct (g x); simpl; [destruct (f x)|]; by rewrite IH.
Qed.

(** Insertion into a [Set], element by element, is [dedup]. *)
Lemma uniq_from_dedup (xs seen : list string) :
  foldl Js.setAdd seen xs
  = seen ++ List.filter (λ y, negb (bool_decide (y ∈ seen))) (Spec.dedup xs).
Proof.
  revert seen. induction xs as [|x xs IH]; intros seen; simpl; [by rewrite app_nil_r|].
  unfold Js.setAdd at 2. rewrite IH. clear IH.
  rewrite filter_filter_andb. case_bool_decide as Hx; simpl.
  - f_equal. apply List.filter_ext_in. intros y _.
    destruct (String.eqb_spec y x) as [->|]; simpl; [|done].
    by rewrite bool_decide_eq_true_2.
  - rewrite <- app_assoc; simpl. do 2 f_equal.
    apply List.filter_ext_in. intros y _.
    destruct (String.eqb_spec y x) as [->|Hne]; simpl.
    + rewrite bool_decide_eq_true_2; [done|]. apply elem_of_app. right. by left.
    + apply (f_equal negb), bool_decide_ext.
      rewrite elem_of_app, list_elem_of_singleton. tauto.
Qed.

Lemma uniq_dedup (xs : list string) : Js.uniq xs = Spec.dedup xs.
Proof.
  unfold Js.uniq. rewrite uniq_from_dedup; simpl.
  induction (Spec.dedup xs) as [|y l IH]; simpl; [done|]. by rewrite IH.
Qed.

(** The merge of lines 361-383, in the words of spec 4.3, steps 7 and 8. *)
Lemma merge_spec (w : Walk) :
  let ea := Spec.effective_allow (allAllow w) (allDeny w) in
  let ed := Spec.effective_deny (allDeny w) in
  merge w
  = if bool_decide (ea = [] ∧ ed = []) then None
    else Some {| policy := {| allow := if bool_decide (ea = []) then None else Some ea;
                              deny := if bool_decide (ed = []) then None else Some ed |};
                 trace := {| resolvedFrom := chain w; effectiveAllow := ea;
                             effectiveDeny := ed |} |}.
Proof.
  intros ea ed. unfold merge.
  assert ((if bool_decide (0 < length (allAllow w))
           then List.filter (λ t, negb (bool_decide (t ∈ (list_to_set (allDeny w) : gset string))))
                  (Js.uniq (allAllow w))
           else []) = ea) as ->.
  { subst ea. unfold Spec.effective_allow. rewrite uniq_dedup.
    destruct (allAllow w) as [|x l] eqn:E; [done|].
    rewrite bool_decide_eq_true_2 by (simpl; lia).
    apply List.filter_ext. intros t. f_equal. apply bool_decide_ext.
    apply elem_of_list_to_set. }
  rewrite uniq_dedup. fold ed. fold (Spec.effective_deny (allDeny w)). fold ed.
  destruct ea as [|x l], ed as [|y m]; simpl; done.
Qed.

Lemma namedProfile_own (profileName : string) (profile : NamedProfileInput) :
  namedProfiles !! profileName = Some profile →
  namedProfile namedProfiles profileName = Some profile.
Proof. intros H. unfold namedProfile, Js.get. by rewrite H. Qed.

(** The loop of [resolveNamedToolProfilePolicy], from its first state. *)
Lemma walk_from_start fuel profileName profile :
  MAX_EXTENDS_DEPTH ≤ fuel →
  namedProfile namedProfiles profileName = Some profile →
  walk fuel namedProfiles (mkWalk [profileName] {[profileName]} [] []) (Some profile)
  = Some {| chain := Spec.chainOf namedProfiles profileName;
            visited := list_to_set (Spec.chainOf namedProfiles profileName);
            allAllow := Spec.allAllowOf
                          (Spec.links namedProfiles (Spec.chainOf namedProfiles profileName));
            allDeny := Spec.allDenyOf
                         (Spec.links namedProfiles (Spec.chainOf namedProfiles profileName)) |}.
Proof.
  intros Hfuel Hp. rewrite walk_reaches; simpl; [|by rewrite (right_id_L ∅ (∪))|unfold MAX_EXTENDS_DEPTH in *; lia..].
  unfold Spec.reached, Spec.chainOf, Spec.links; simpl. by rewrite Hp.
Qed.

Lemma chainOf_length profileName :
  length (Spec.chainOf namedProfiles profileName) ≤ MAX_EXTENDS_DEPTH.
Proof.
  unfold Spec.chainOf; simpl.
  pose proof (parentsOf_length 4 [profileName] (namedProfile namedProfiles profileName)).
  unfold MAX_EXTENDS_DEPTH. simpl in *. lia.
Qed.

Lemma chainOf_NoDup profileName : NoDup (Spec.chainOf namedProfiles profileName).
Proof.
  apply (parentsOf_NoDup _ [profileName]), NoDup_singleton.
Qed.

End NamedWalk.

Section NamedProfiles.
Import Catalog.

Lemma dedup_elem_of xs t : t ∈ Spec.dedup xs ↔ t ∈ xs.
Proof.
  revert t. induction xs as [|x xs IH]; intros t; simpl; [done|].
  rewrite !elem_of_cons, list_elem_of_In, List.filter_In, <- list_elem_of_In, IH.
  destruct (String.eqb_spec t x); simpl; intuition congruence.
Qed.

Lemma dedup_NoDup xs : NoDup (Spec.dedup xs).
Proof.
  induction xs as [|x xs IH]; simpl; constructor.
  - rewrite list_elem_of_In, List.filter_In, String.eqb_refl. simpl.
    intros [_ ?]. discriminate.
  - apply NoDup_ListNoDup, List.NoDup_filter, NoDup_ListNoDup, IH.
Qed.

Lemma coreProfile_nonEmpty parent builtIn :
  coreProfile parent = Some builtIn → Js.nonEmpty parent = true.
Proof.
  destruct parent as [|a parent]; [|reflexivity].
  vm_compute. discriminate.
Qed.

(** C3, as the loop has it: [resolveNamedToolProfilePolicy] returns for
    every profile name and every map of named profiles:
    [MAX_EXTENDS_DEPTH] runs of the loop body are enough and more fuel
    changes nothing; the chain it has visited is [Spec.chainOf], at most
    [MAX_EXTENDS_DEPTH] names, none of them twice; a parent that was already
    visited ends the loop with no error; and a parent that is a built-in
    profile always ends the loop: right after its lists are merged when it
    was not visited and the chain has fewer than [MAX_EXTENDS_DEPTH] names,
    and before it is read, with nothing merged, otherwise. *)
Theorem resolveNamedToolProfilePolicy_terminates
    (profileName : string) (namedProfiles : gmap string NamedProfileInput) :
  (∃ r, resolveNamedToolProfilePolicy profileName namedProfiles = Returned r
        ∧ (∀ fuel, MAX_EXTENDS_DEPTH ≤ fuel →
             resolveNamedWith fuel profileName namedProfiles = Returned r)
        ∧ (∀ res, r = Some res →
             resolvedFrom (trace res) = Spec.chainOf namedProfiles profileName))
  ∧ (∀ profile, namedProfile namedProfiles profileName = Some profile →
       ∃ w, walk MAX_EXTENDS_DEPTH namedProfiles
              (mkWalk [profileName] {[profileName]} [] []) (Some profile) = Some w
            ∧ chain w = Spec.chainOf namedProfiles profileName)
  ∧ length (Spec.chainOf namedProfiles profileName) ≤ MAX_EXTENDS_DEPTH
  ∧ NoDup (Spec.chainOf namedProfiles profileName)
  ∧ (∀ w cur parent,
       extends cur = Some parent → parent ∈ visited w →
       walkBody namedProfiles w cur
       = (mkWalk (chain w) (visited w) (pushAll (allAllow w) (nallow cur))
            (pushAll (allDeny w) (ndeny cur)), None))
  ∧ (∀ w cur parent builtIn,
       extends cur = Some parent → coreProfile parent = Some builtIn →
       walkBody namedProfiles w cur
       = if bool_decide (parent ∈ visited w)
            || bool_decide (MAX_EXTENDS_DEPTH ≤ length (chain w))
         then (mkWalk (chain w) (visited w) (pushAll (allAllow w) (nallow cur))
                 (pushAll (allDeny w) (ndeny cur)), None)
         else (mkWalk (chain w ++ [parent]) ({[parent]} ∪ visited w)
                 (pushAll (pushAll (allAllow w) (nallow cur)) (allow builtIn))
                 (pushAll (pushAll (allDeny w) (ndeny cur)) (deny builtIn)), None)).
Proof.
  split; [|split; [|split; [apply chainOf_length|split; [apply chainOf_NoDup|split]]]].
  - unfold resolveNamedToolProfilePolicy, resolveNamedWith.
    destruct (namedProfile namedProfiles profileName) as [profile|] eqn:Hp.
    + rewrite (walk_from_start namedProfiles _ _ profile) by done.
      eexists. split; [done|]. split.
      * intros fuel Hfuel. by rewrite (walk_from_start namedProfiles _ _ profile).
      * intros res. rewrite merge_spec; simpl. case_bool_decide; [done|]. by intros [= <-].
    + exists None. repeat split; done.
  - intros profile Hp. eexists. split; [by apply walk_from_start|done].
  - intros w cur parent Hext Hseen. unfold walkBody. rewrite Hext; simpl.
    destruct (Js.nonEmpty parent); simpl; [|done].
    by rewrite bool_decide_eq_true_2.
  - intros w cur parent builtIn Hext Hcore. unfold walkBody.
    rewrite Hext, (coreProfile_nonEmpty _ _ Hcore); cbn [negb chain visited].
    destruct (bool_decide (parent ∈ visited w)); [reflexivity|].
    destruct (bool_decide (MAX_EXTENDS_DEPTH ≤ length (chain w))); [reflexivity|].
    by rewrite Hcore.
Qed.

(** The theorem on two profiles that extend each other, on a chain of seven
    profiles, and on a profile that extends a built-in one. *)
Lemma resolveNamedToolProfilePolicy_terminates_witness :
  (∃ res, resolveNamedWith 9 "a" Sample.cyclic = Returned (Some res)
          ∧ resolvedFrom (trace res) = ["a"; "b"])
  ∧ (∃ w, walk MAX_EXTENDS_DEPTH Sample.long (mkWalk ["p1"] {["p1"]} [] [])
            (Sample.long !! "p1") = Some w
          ∧ chain w = ["p1"; "p2"; "p3"; "p4"; "p5"])
  ∧ snd (walkBody Sample.cyclic (mkWalk ["a"; "b"] (list_to_set ["a"; "b"]) [] [])
           (mkNamed (Some "a") None None)) = None
  ∧ fst (walkBody Sample.onMinimal (mkWalk ["support"] {["support"]} [] [])
           (mkNamed (Some "minimal") (Some ["message"]) (Some ["exec"])))
    = mkWalk ["support"; "minimal"] ({["minimal"]} ∪ {["support"]})
        ["message"; "session_status"] ["exec"].
Proof.
  split; [|split; [|split]].
  - destruct (resolveNamedToolProfilePolicy_terminates "a" Sample.cyclic)
      as [(r & Hr & Hfuel & Hchain) _].
    assert (r = Some (mkResolved (mkPolicy (Some ["read"; "write"]) (Some ["exec"]))
                        (mkTrace ["a"; "b"] ["read"; "write"] ["exec"]))) as ->.
    { vm_compute in Hr. congruence. }
    eexists. split; [apply Hfuel; by apply Nat.leb_le|reflexivity].
  - destruct (resolveNamedToolProfilePolicy_terminates "p1" Sample.long)
      as (_ & Hwalk & _).
    destruct (Hwalk (mkNamed (Some "p2") (Some ["t1"]) None) eq_refl) as (w & Hw & Hc).
    exists w. split; [exact Hw|]. rewrite Hc. vm_compute. reflexivity.
  - destruct (resolveNamedToolProfilePolicy_terminates "a" Sample.cyclic)
      as (_ & _ & _ & _ & Hcycle & _).
    rewrite (Hcycle _ _ "a"); [reflexivity|reflexivity|].
    apply elem_of_list_to_set, list_elem_of_In. simpl. tauto.
  - destruct (resolveNamedToolProfilePolicy_terminates "support" Sample.onMinimal)
      as (_ & _ & _ & _ & _ & Hbuilt).
    rewrite (Hbuilt _ _ "minimal" (mkPolicy (Some ["session_status"]) None));
      [|reflexivity|reflexivity].
    cbn [chain visited length].
    rewrite bool_decide_eq_false_2 by (rewrite elem_of_singleton; discriminate).
    rewrite bool_decide_eq_false_2 by (unfold MAX_EXTENDS_DEPTH; lia).
    reflexivity.
Defined.

(** C3 as stated fails where the walk meets a built-in parent too late or a
    second time.  In [Sample.deep] the fifth profile extends [minimal]: the
    chain has [MAX_EXTENDS_DEPTH] names by then, the loop leaves before it
    reads the built-in, and [session_status], the allow list of [minimal],
    is not merged.  In [Sample.selfMinimal] the profile called [minimal]
    extends [minimal]: the name was visited, and nothing is merged. *)
Lemma builtin_not_merged_counterexample :
  (Sample.deep !! "q5" = Some (mkNamed (Some "minimal") (Some ["t5"]) None)
   ∧ coreProfile "minimal" = Some (mkPolicy (Some ["session_status"]) None)
   ∧ walkBody Sample.deep Sample.deepAtQ5 (mkNamed (Some "minimal") (Some ["t5"]) None)
     = (mkWalk ["q1"; "q2"; "q3"; "q4"; "q5"]
          (list_to_set ["q1"; "q2"; "q3"; "q4"; "q5"])
          ["t1"; "t2"; "t3"; "t4"; "t5"] [], None)
   ∧ allAllow (fst (walkBody Sample.deep Sample.deepAtQ5
                      (mkNamed (Some "minimal") (Some ["t5"]) None)))
     ≠ ["t1"; "t2"; "t3"; "t4"; "t5"; "session_status"]
   ∧ resolveNamedToolProfilePolicy "q1" Sample.deep
     = Returned (Some (mkResolved
                         (mkPolicy (Some ["t1"; "t2"; "t3"; "t4"; "t5"]) None)
                         (mkTrace ["q1"; "q2"; "q3"; "q4"; "q5"]
                            ["t1"; "t2"; "t3"; "t4"; "t5"] []))))
  ∧ (Sample.selfMinimal !! "minimal" = Some (mkNamed (Some "minimal") (Some ["read"]) None)
     ∧ resolveNamedToolProfilePolicy "minimal" Sample.selfMinimal
       = Returned (Some (mkResolved (mkPolicy (Some ["read"]) None)
                           (mkTrace ["minimal"] ["read"] [])))).
Proof.
  repeat split; vm_compute; try reflexivity. discriminate.
Qed.

(** C4: for a profile name present in the map, with [all_allow] and
    [all_deny] the concatenated lists of the chain,
    [resolveNamedToolProfilePolicy] returns
    [effective_allow = dedup(all_allow)] without the entries of [all_deny]
    and [effective_deny = dedup(all_deny)], and it returns nothing exactly
    when both are empty. *)
Theorem resolveNamedToolProfilePolicy_merge_rule
    (profileName : string) (namedProfiles : gmap string NamedProfileInput)
    (profile : NamedProfileInput) :
  namedProfiles !! profileName = Some profile →
  let ls := Spec.links namedProfiles (Spec.chainOf namedProfiles profileName) in
  let ea := Spec.effective_allow (Spec.allAllowOf ls) (Spec.allDenyOf ls) in
  let ed := Spec.effective_deny (Spec.allDenyOf ls) in
  (∃ r, resolveNamedToolProfilePolicy profileName namedProfiles = Returned r
        ∧ (r = None ↔ ea = [] ∧ ed = [])
        ∧ (∀ res, r = Some res →
             effectiveAllow (trace res) = ea ∧ effectiveDeny (trace res) = ed
             ∧ allow (policy res) = (if bool_decide (ea = []) then None else Some ea)
             ∧ deny (policy res) = (if bool_decide (ed = []) then None else Some ed)))
  ∧ (∀ t, t ∈ ea ↔ t ∈ Spec.allAllowOf ls ∧ t ∉ Spec.allDenyOf ls)
  ∧ (∀ t, t ∈ ed ↔ t ∈ Spec.allDenyOf ls)
  ∧ NoDup ea ∧ NoDup ed.
Proof.
  intros Hown ls ea ed. split.
  - unfold resolveNamedToolProfilePolicy, resolveNamedWith.
    apply namedProfile_own in Hown. rewrite Hown.
    rewrite (walk_from_start namedProfiles _ _ profile) by done.
    rewrite merge_spec; simpl. fold ls. fold ea. fold ed.
    eexists. split; [done|]. case_bool_decide as Hempty.
    + split; [done|]. by intros res [=].
    + split; [by split|]. intros res [= <-]; simpl. done.
  - split; [|split; [apply dedup_elem_of|split; [|apply dedup_NoDup]]].
    + intros t. unfold ea, Spec.effective_allow.
      rewrite list_elem_of_In, List.filter_In, <- list_elem_of_In, dedup_elem_of.
      rewrite negb_true_iff, bool_decide_eq_false. done.
    + apply NoDup_ListNoDup, List.NoDup_filter, NoDup_ListNoDup, dedup_NoDup.
Qed.

(** The merge rule on the two profiles that extend each other. *)
Lemma resolveNamedToolProfilePolicy_merge_rule_witness :
  ∃ r, resolveNamedToolProfilePolicy "a" Sample.cyclic = Returned r
       ∧ ∀ res, r = Some res →
           effectiveAllow (trace res) = ["read"; "write"]
           ∧ effectiveDeny (trace res) = ["exec"].
Proof.
  destruct (resolveNamedToolProfilePolicy_merge_rule "a" Sample.cyclic
              (mkNamed (Some "b") (Some ["read"; "exec"]) (Some ["exec"])) eq_refl)
    as [(r & Hr & _ & Hres) _].
  exists r. split; [exact Hr|].
  intros res Hsome. destruct (Hres res Hsome) as (Ha & Hd & _).
  rewrite Ha, Hd. vm_compute. split; reflexivity.
Defined.

Lemma filter_nil_iff {A} (f : A → bool) (l : list A) :
  List.filter f l = [] ↔ ∀ x, x ∈ l → f x = false.
Proof.
  induction l as [|x l IH]; simpl.
  - split; [intros _ y Hy; by apply elem_of_nil in Hy|done].
  - destruct (f x) eqn:E.
    + split; [done|]. intros H. specialize (H x (list_elem_of_here _ _)). congruence.
    + rewrite IH. split.
      * intros H y [->|Hy]%elem_of_cons; auto.
      * intros H y Hy. apply H. by right.
Qed.

(** C9: when every gathered allow entry is also a gathered deny entry, and
    there is a deny entry, the policy returned has no [allow] field and only
    the [deny] list; the filter of spec 4.6 then keeps every tool but the
    denied ones. *)
Theorem resolveNamedToolProfilePolicy_allow_absent
    (profileName : string) (namedProfiles : gmap string NamedProfileInput)
    (profile : NamedProfileInput) :
  namedProfiles !! profileName = Some profile →
  let ls := Spec.links namedProfiles (Spec.chainOf namedProfiles profileName) in
  Spec.allDenyOf ls ≠ [] →
  (∀ t, t ∈ Spec.allAllowOf ls → t ∈ Spec.allDenyOf ls) →
  ∃ res, resolveNamedToolProfilePolicy profileName namedProfiles = Returned (Some res)
         ∧ allow (policy res) = None
         ∧ deny (policy res) = Some (Spec.effective_deny (Spec.allDenyOf ls))
         ∧ Spec.effective_deny (Spec.allDenyOf ls) ≠ []
         ∧ ∀ tools t,
             t ∈ ToolPolicy.filterToolsByPolicy tools (policy res)
             ↔ t ∈ tools
               ∧ Shared.normalizeToolName (name t) ∉ Js.Str <$> Spec.allDenyOf ls.
Proof.
  intros Hown ls Hdeny Hcovered.
  unfold resolveNamedToolProfilePolicy, resolveNamedWith.
  apply namedProfile_own in Hown. rewrite Hown.
  rewrite (walk_from_start namedProfiles _ _ profile) by done.
  rewrite merge_spec. cbv zeta. cbn [allAllow allDeny chain]. fold ls.
  assert (Spec.effective_allow (Spec.allAllowOf ls) (Spec.allDenyOf ls) = []) as ->.
  { apply filter_nil_iff. intros t Ht. rewrite dedup_elem_of in Ht.
    apply negb_false_iff, bool_decide_eq_true. by apply Hcovered. }
  assert (Spec.effective_deny (Spec.allDenyOf ls) ≠ []) as Hed.
  { destruct (Spec.allDenyOf ls) as [|d ds]; [done|]. simpl. discriminate. }
  rewrite bool_decide_eq_false_2 by (intros [_ ?]; done).
  rewrite bool_decide_eq_true_2, bool_decide_eq_false_2 by done.
  eexists. split; [done|]. simpl. do 3 (split; [done|]).
  intros tools t. unfold ToolPolicy.filterToolsByPolicy.
  rewrite list_elem_of_In, List.filter_In, <- list_elem_of_In.
  unfold ToolPolicy.isAllowed; simpl.
  rewrite negb_true_iff, bool_decide_eq_false.
  assert (∀ v, v ∈ Js.Str <$> Spec.effective_deny (Spec.allDenyOf ls)
               ↔ v ∈ Js.Str <$> Spec.allDenyOf ls) as Hsame.
  { intros v. rewrite !list_elem_of_fmap. unfold Spec.effective_deny.
    split; intros (d & -> & Hd); exists d; (split; [done|]); by apply dedup_elem_of. }
  by rewrite Hsame.
Qed.

(** The theorem on a profile that denies all it allows: [exec] and [read]
    are gone, an unrelated tool stays. *)
Lemma resolveNamedToolProfilePolicy_allow_absent_witness :
  ∃ res, resolveNamedToolProfilePolicy "locked" Sample.selfDenied = Returned (Some res)
         ∧ allow (policy res) = None
         ∧ deny (policy res) = Some ["read"; "exec"; "write"]
         ∧ Sample.toolNamed "message"
             ∈ ToolPolicy.filterToolsByPolicy
                 [Sample.toolNamed "exec"; Sample.toolNamed "message"] (policy res).
Proof.
  destruct (resolveNamedToolProfilePolicy_allow_absent "locked" Sample.selfDenied
              (mkNamed None (Some ["exec"; "read"]) (Some ["read"; "exec"; "write"]))
              eq_refl)
    as (res & Hres & Ha & Hd & _ & Hfilter).
  - vm_compute. discriminate.
  - intros t Ht. vm_compute in Ht. vm_compute.
    repeat (apply elem_of_cons in Ht as [->|Ht]; [apply list_elem_of_In; simpl; tauto|]).
    by apply elem_of_nil in Ht.
  - exists res. split; [exact Hres|]. split; [exact Ha|]. split.
    + rewrite Hd. vm_compute. reflexivity.
    + apply Hfilter. split; [apply list_elem_of_In; simpl; tauto|].
      vm_compute. intros Hin.
      repeat (apply elem_of_cons in Hin as [Hin|Hin]; [discriminate|]).
      by apply elem_of_nil in Hin.
Defined.

End NamedProfiles.

(* ===================================================================== *)
(** ** The pipeline                                                       *)
(* ===================================================================== *)

Section PipelineNarrowing.
Import Catalog.
Import Pipeline(spolicy, slabel, sstripPluginOnlyAllowlist, runSteps, applyStep).

Lemma filter_sublist_of {A} (f : A → bool) (l : list A) :
  List.filter f l `sublist_of` l.
Proof.
  induction l as [|x l IH]; simpl; [constructor|].
  destruct (f x); by constructor.
Qed.

(** The working list after a step, with the imports spelled out. *)
Lemma applyStep_output groups core filtered step :
  fst (applyStep specImports groups core filtered step)
  = match spolicy step with
    | None => filtered
    | Some p =>
        let policy :=
          if sstripPluginOnlyAllowlist step
          then ToolPolicy.policy (ToolPolicy.stripPluginOnlyAllowlist p groups core)
          else Some p in
        match ToolPolicy.expandPolicyWithPluginGroups policy groups with
        | Some e => ToolPolicy.filterToolsByPolicy filtered e
        | None => filtered
        end
    end.
Proof.
  unfold applyStep. destruct (spolicy step) as [p|]; [|done].
  by destruct (sstripPluginOnlyAllowlist step).
Qed.

Lemma applyStep_sublist groups core filtered step :
  fst (applyStep specImports groups core filtered step) `sublist_of` filtered.
Proof.
  rewrite applyStep_output. destruct (spolicy step) as [p|]; [|done]. simpl.
  destruct (ToolPolicy.expandPolicyWithPluginGroups _ groups); [|done].
  apply filter_sublist_of.
Qed.

Lemma runSteps_sublist groups core steps : ∀ filtered,
  fst (runSteps specImports groups core filtered steps) `sublist_of` filtered.
Proof.
  induction steps as [|step steps IH]; intros filtered; simpl; [done|].
  pose proof (applyStep_sublist groups core filtered step) as Hstep.
  destruct (applyStep specImports groups core filtered step) as [filtered' w]; simpl in *.
  specialize (IH filtered').
  destruct (runSteps specImports groups core filtered' steps) as [out ws]; simpl in *.
  by etrans.
Qed.

Lemma pipeline_output tools toolMeta steps ctx :
  fst (applyToolPolicyPipeline tools toolMeta steps ctx)
  = fst (runSteps specImports (ToolPolicy.buildPluginToolGroups tools toolMeta)
           (Pipeline.coreToolNamesOf tools toolMeta) tools steps).
Proof.
  unfold applyToolPolicyPipeline, Pipeline.applyToolPolicyPipeline; simpl.
  by destruct (runSteps _ _ _ _ _).
Qed.

(** C2: the list [applyToolPolicyPipeline] returns is a subsequence of the
    input list: it is no longer, each of its tools is a tool of the input,
    and a single step returns a subsequence of the working list it receives. *)
Theorem applyToolPolicyPipeline_narrows
    (tools : list AnyAgentTool) (toolMeta : AnyAgentTool → option string)
    (steps : list Pipeline.ToolPolicyPipelineStep)
    (ctx : option Pipeline.NamedProfileContext) :
  let out := fst (applyToolPolicyPipeline tools toolMeta steps ctx) in
  out `sublist_of` tools
  ∧ length out ≤ length tools
  ∧ (∀ t, t ∈ out → t ∈ tools)
  ∧ (∀ groups core filtered step,
       let filtered' := fst (applyStep specImports groups core filtered step) in
       filtered' `sublist_of` filtered
       ∧ length filtered' ≤ length filtered
       ∧ ∀ t, t ∈ filtered' → t ∈ filtered).
Proof.
  intros out.
  assert (out `sublist_of` tools) as Hsub.
  { unfold out. rewrite pipeline_output. apply runSteps_sublist. }
  split; [done|]. split; [by apply sublist_length|].
  split; [intros t; by apply sublist_subseteq|].
  intros groups core filtered step filtered'.
  pose proof (applyStep_sublist groups core filtered step) as Hstep.
  split; [done|]. split; [by apply sublist_length|]. intros t. by apply sublist_subseteq.
Qed.

End PipelineNarrowing.

Section PipelineDeny.
Import Catalog.
Import Pipeline(spolicy, slabel, sstripPluginOnlyAllowlist, runSteps, applyStep).

Lemma elem_of_setAdd_fold {A} `{EqDecision A} (l seen : list A) (x : A) :
  x ∈ foldl Js.setAdd seen l ↔ x ∈ seen ∨ x ∈ l.
Proof.
  revert seen. induction l as [|y l IH]; intros seen; simpl.
  - rewrite elem_of_nil. tauto.
  - rewrite IH, elem_of_cons. unfold Js.setAdd. case_bool_decide as Hy.
    + split; [tauto|]. intros [?|[->|?]]; tauto.
    + rewrite elem_of_app, list_elem_of_singleton. tauto.
Qed.

Lemma elem_of_uniq {A} `{EqDecision A} (l : list A) (x : A) : x ∈ Js.uniq l ↔ x ∈ l.
Proof. unfold Js.uniq. rewrite elem_of_setAdd_fold, elem_of_nil. tauto. Qed.

(** The expanded list holds what its entries expand to. *)
Lemma elem_of_expandList groups entries x :
  x ∈ ToolPolicy.expandList groups entries
  ↔ ∃ e, e ∈ entries ∧ x ∈ ToolPolicy.expandEntry groups e.
Proof.
  unfold ToolPolicy.expandList. rewrite elem_of_uniq, list_elem_of_In, in_concat.
  split.
  - intros (piece & Hpiece & Hx).
    apply list_elem_of_In, list_elem_of_fmap in Hpiece as (e & -> & He).
    exists e. split; [done|]. by apply list_elem_of_In.
  - intros (e & He & Hx). exists (ToolPolicy.expandEntry groups e).
    split; [|by apply list_elem_of_In].
    apply list_elem_of_In, list_elem_of_fmap. by exists e.
Qed.

Lemma canonicalEntry_Some entry s :
  ToolPolicy.canonicalEntry entry = Some s
  ↔ Shared.normalizeToolName entry = Js.Str s ∧ s ≠ EmptyString.
Proof.
  unfold ToolPolicy.canonicalEntry, Js.nonEmpty.
  destruct (Shared.normalizeToolName entry) as [c|k].
  - destruct (String.eqb_spec c EmptyString) as [->|Hne]; cbn [negb].
    + split; [discriminate|]. intros [[= <-] Hs]. done.
    + split; [by intros [= <-]|]. by intros [[= <-] _].
  - split; [discriminate|]. by intros [[=] _].
Qed.

(** What one entry expands to. *)
Lemma elem_of_expandEntry groups e x :
  x ∈ ToolPolicy.expandEntry groups e
  ↔ match ToolPolicy.entryGroup groups e with
    | Some members => ∃ m, m ∈ members ∧ ToolPolicy.canonicalEntry m = Some x
    | None => ToolPolicy.canonicalEntry e = Some x
    end.
Proof.
  unfold ToolPolicy.expandEntry.
  destruct (ToolPolicy.entryGroup groups e) as [members|].
  - apply list_elem_of_omap.
  - destruct (ToolPolicy.canonicalEntry e) as [c|].
    + rewrite list_elem_of_singleton. split; [by intros ->|by intros [= ->]].
    + split; [by intros ?%elem_of_nil|discriminate].
Qed.

(** Spec 3: after expansion every entry is canonical. *)
Lemma expandList_canonical groups entries x :
  x ∈ ToolPolicy.expandList groups entries → ToolPolicy.canonicalEntry x = Some x.
Proof.
  intros (e & _ & Hx)%elem_of_expandList.
  assert (∃ y, ToolPolicy.canonicalEntry y = Some x) as (y & Hy).
  { apply elem_of_expandEntry in Hx.
    destruct (ToolPolicy.entryGroup groups e) as [members|].
    - destruct Hx as (m & _ & Hm). by exists m.
    - by exists e. }
  apply canonicalEntry_Some in Hy as [Hy Hne]. apply canonicalEntry_Some.
  split; [|done]. by apply (normalizeToolName_idempotent_on_strings y).
Qed.

(** Spec 4.5, step 6: [deny] is never stripped. *)
Lemma strip_keeps_deny p groups core :
  ∃ q, ToolPolicy.policy (ToolPolicy.stripPluginOnlyAllowlist p groups core) = Some q
       ∧ deny q = deny p.
Proof.
  unfold ToolPolicy.stripPluginOnlyAllowlist.
  destruct (allow p) as [a|]; [|by exists p].
  destruct (negb _ && _); simpl; eexists; split; done.
Qed.

Lemma applyStep_removes_denied groups core filtered step t :
  Shared.normalizeToolName (name t) ∈ Js.Str <$> Spec.expandedDeny groups step →
  t ∉ fst (applyStep specImports groups core filtered step).
Proof.
  unfold Spec.expandedDeny. rewrite applyStep_output.
  destruct (spolicy step) as [p|]; [|by intros ?%elem_of_nil].
  intros Hdenied. cbv zeta.
  assert (∃ q, (if sstripPluginOnlyAllowlist step
                then ToolPolicy.policy (ToolPolicy.stripPluginOnlyAllowlist p groups core)
                else Some p) = Some q ∧ deny q = deny p) as (q & -> & Hq).
  { destruct (sstripPluginOnlyAllowlist step); [apply strip_keeps_deny|by exists p]. }
  destruct (deny p) as [d|] eqn:Hd; [|by apply elem_of_nil in Hdenied].
  unfold ToolPolicy.expandPolicyWithPluginGroups, ToolPolicy.hasContent. simpl.
  rewrite Hq; simpl.
  assert (∀ o : option (list string),
            match o with Some _ => true | None => true end = true) as -> by (by intros []).
  unfold ToolPolicy.filterToolsByPolicy.
  rewrite list_elem_of_In, List.filter_In. intros [_ Hkeep].
  unfold ToolPolicy.isAllowed in Hkeep; simpl in Hkeep.
  apply andb_true_iff in Hkeep as [_ Hkeep].
  apply negb_true_iff, bool_decide_eq_false in Hkeep. done.
Qed.

Lemma runSteps_removes_denied groups core steps step t : ∀ filtered,
  step ∈ steps →
  Shared.normalizeToolName (name t) ∈ Js.Str <$> Spec.expandedDeny groups step →
  t ∉ fst (runSteps specImports groups core filtered steps).
Proof.
  induction steps as [|s steps IH]; intros filtered Hin Hdenied.
  { by apply elem_of_nil in Hin. }
  simpl.
  pose proof (applyStep_removes_denied groups core filtered s t) as Hhere.
  pose proof (applyStep_sublist groups core filtered s) as Hsub.
  destruct (applyStep specImports groups core filtered s) as [filtered' w]; simpl in *.
  pose proof (runSteps_sublist groups core steps filtered') as Hrest.
  specialize (IH filtered').
  destruct (runSteps specImports groups core filtered' steps) as [out ws]; simpl in *.
  apply elem_of_cons in Hin as [->|Hin]; [|by apply IH].
  intros Hout. apply Hhere; [done|]. by apply (sublist_subseteq _ _ Hrest).
Qed.

(** A tool whose normalized name is an entry of some step's deny list after
    group expansion is not in the list the pipeline returns. *)
Lemma pipeline_removes_expanded_deny tools toolMeta steps ctx step t :
  step ∈ steps →
  Shared.normalizeToolName (name t)
    ∈ Js.Str <$> Spec.expandedDeny (ToolPolicy.buildPluginToolGroups tools toolMeta) step →
  t ∉ fst (applyToolPolicyPipeline tools toolMeta steps ctx).
Proof.
  intros Hin Hdenied. rewrite pipeline_output. by eapply runSteps_removes_denied.
Qed.

(** An entry that names the tool expands to the tool's normalized name. *)
Lemma entryNames_expandEntry groups e t :
  Spec.entryNames groups e t →
  ∃ s, Shared.normalizeToolName (name t) = Js.Str s
       ∧ s ∈ ToolPolicy.expandEntry groups e.
Proof.
  unfold Spec.entryNames. setoid_rewrite elem_of_expandEntry.
  destruct (ToolPolicy.entryGroup groups e) as [members|].
  - intros (m & Hm & Hc).
    destruct (ToolPolicy.canonicalEntry m) as [s|] eqn:Hs; [|discriminate].
    injection Hc as <-. exists s. split; [reflexivity|]. exists m. split; [exact Hm|exact Hs].
  - destruct (ToolPolicy.canonicalEntry e) as [s|]; [|discriminate].
    intros [= <-]. exists s. split; reflexivity.
Qed.

(** A deny list that names the tool holds the tool's canonical name after
    expansion. *)
Lemma denyNames_expandedDeny groups step t :
  Spec.denyNames groups step t →
  Shared.normalizeToolName (name t) ∈ Js.Str <$> Spec.expandedDeny groups step.
Proof.
  intros (p & d & e & Hp & Hd & He & Hnames). unfold Spec.expandedDeny.
  rewrite Hp, Hd. cbn [default].
  assert (∃ s, Shared.normalizeToolName (name t) = Js.Str s
               ∧ s ∈ ToolPolicy.expandEntry groups e) as (s & -> & Hs).
  { apply (entryNames_expandEntry groups e t Hnames). }
  apply list_elem_of_fmap. exists s. split; [reflexivity|].
  apply elem_of_expandList. exists e. split; [exact He|exact Hs].
Qed.

(** Policy entries are read in canonical form (spec 1 and 3): an alias or a
    name in capitals in a deny list removes the tool, in an allow list keeps
    it, and a group reference in capitals stands for the group. *)
Example policy_entries_in_canonical_form :
  ToolPolicy.expandList ∅ [" BASH "; "EXEC"; "GROUP:FS"; EmptyString; "wat"]
  = ["exec"; "read"; "write"; "edit"; "apply_patch"; "wat"]
  ∧ Sample.names (applyToolPolicyPipeline Sample.allTools Sample.noMeta
                    [Sample.step None (Some ["bash"]) "deny alias"] None)
    = ["read"; "write"; "message"; "session_status"; "web_search"; "grep"]
  ∧ Sample.names (applyToolPolicyPipeline Sample.allTools Sample.noMeta
                    [Sample.step None (Some ["EXEC"]) "deny capitals"] None)
    = ["read"; "write"; "message"; "session_status"; "web_search"; "grep"]
  ∧ Sample.names (applyToolPolicyPipeline Sample.allTools Sample.noMeta
                    [Sample.step (Some ["bash"; "Read"]) None "allow alias"] None)
    = ["read"; "exec"].
Proof. repeat split; vm_compute; reflexivity. Qed.

(** C1: if the deny list of some step names the tool [t] after
    normalization (an entry whose canonical form is the canonical name of
    [t], or a reference to a group that has [t] among its members), then
    [t] is not in the list [applyToolPolicyPipeline] returns, whatever the
    allow lists of that step and of the other steps are. *)
Theorem applyToolPolicyPipeline_deny_dominance
    (tools : list AnyAgentTool) (toolMeta : AnyAgentTool → option string)
    (steps : list Pipeline.ToolPolicyPipelineStep)
    (ctx : option Pipeline.NamedProfileContext)
    (step : Pipeline.ToolPolicyPipelineStep) (t : AnyAgentTool) :
  step ∈ steps →
  Spec.denyNames (ToolPolicy.buildPluginToolGroups tools toolMeta) step t →
  t ∉ fst (applyToolPolicyPipeline tools toolMeta steps ctx).
Proof.
  intros Hin Hnames.
  apply (pipeline_removes_expanded_deny _ _ _ _ step); [done|].
  by apply denyNames_expandedDeny.
Qed.

(** [exec] is denied by the first step under its alias [bash], written in
    capitals, and allowed by the second step: it is not in the output. *)
Lemma applyToolPolicyPipeline_deny_dominance_witness :
  Sample.toolNamed "exec"
    ∉ fst (applyToolPolicyPipeline
             (Sample.toolNamed <$> ["read"; "write"; "exec"; "message"]) Sample.noMeta
             [Sample.denyAlias; Sample.allowExec] None).
Proof.
  apply (applyToolPolicyPipeline_deny_dominance _ _ _ _ Sample.denyAlias).
  - apply list_elem_of_In. simpl. tauto.
  - exists (Catalog.mkPolicy None (Some [" BASH "; "GROUP:FS"])),
      [" BASH "; "GROUP:FS"], " BASH ".
    split; [reflexivity|]. split; [reflexivity|].
    split; [apply list_elem_of_In; simpl; tauto|].
    vm_compute. reflexivity.
Defined.

End PipelineDeny.

Section PipelineWarnings.
Import Pipeline(profileName, headlineTools, postPipelineWarnings).

Lemma remaining_has (filtered : list AnyAgentTool) (v : Js.value) :
  v ∈ Js.uniq ((λ t, Shared.normalizeToolName (name t)) <$> filtered)
  ↔ ∃ t, t ∈ filtered ∧ Shared.normalizeToolName (name t) = v.
Proof.
  rewrite elem_of_uniq, list_elem_of_fmap.
  split; intros (t & H1 & H2); exists t; by split.
Qed.

Lemma length_zero_nil {A} (l : list A) : length l = 0 ↔ l = [].
Proof. destruct l; simpl; split; intros; congruence. Qed.

(** The three tests of lines 117, 121 and 125 decide the three conditions
    of the specification. *)
Lemma onlySessionStatus_test filtered :
  bool_decide (length filtered = 1)
  && bool_decide (Js.Str "session_status"
                    ∈ Js.uniq ((λ t, Shared.normalizeToolName (name t)) <$> filtered)) = true
  ↔ Spec.onlySessionStatus filtered.
Proof.
  rewrite andb_true_iff, !bool_decide_eq_true, remaining_has. reflexivity.
Qed.

Lemma headlineLost_test ctx filtered :
  bool_decide (0 < length (default [] (headlineTools ctx)))
  && forallb (λ t, negb (bool_decide
                (Shared.normalizeToolName t
                   ∈ Js.uniq ((λ t, Shared.normalizeToolName (name t)) <$> filtered))))
       (default [] (headlineTools ctx)) = true
  ↔ Spec.headlineLost ctx filtered.
Proof.
  rewrite andb_true_iff, bool_decide_eq_true, forallb_forall. unfold Spec.headlineLost.
  split.
  - intros [Hlen Hall]. destruct (headlineTools ctx) as [headline|]; simpl in *; [|lia].
    exists headline. split; [done|]. split; [by destruct headline; simpl in *; [lia|]|].
    intros h Hh Hs. apply list_elem_of_In, Hall, negb_true_iff, bool_decide_eq_false in Hh.
    apply Hh, remaining_has. exact Hs.
  - intros (headline & -> & Hne & Hall). simpl. split.
    + destruct headline; simpl; [done|lia].
    + intros h Hh. apply negb_true_iff, bool_decide_eq_false.
      rewrite remaining_has. by apply Hall, list_elem_of_In.
Qed.

Lemma postPipelineWarnings_spec ctx filtered :
  Spec.PostWarning ctx filtered (postPipelineWarnings ctx filtered).
Proof.
  unfold postPipelineWarnings. cbv zeta.
  case_bool_decide as Hzero.
  { apply Spec.ZeroTools. by apply length_zero_nil. }
  assert (filtered ≠ []) as Hne by (by rewrite <- length_zero_nil).
  destruct (bool_decide (length filtered = 1) && _) eqn:Honly.
  { apply Spec.OnlySessionStatus; [done|]. by apply onlySessionStatus_test. }
  assert (¬ Spec.onlySessionStatus filtered) as Hnot.
  { rewrite <- onlySessionStatus_test. congruence. }
  destruct (bool_decide (0 < length _) && _) eqn:Hlost.
  - apply Spec.HeadlineLoss; [done..|]. by apply headlineLost_test.
  - apply Spec.NoPostWarning; [done..|]. rewrite <- headlineLost_test. congruence.
Qed.

(** C8: with a [namedProfileContext] the pipeline returns the same list and
    emits the warnings of the steps followed by at most one post-filter
    warning, chosen by priority: zero tools; else only [session_status];
    else all headline tools lost; else none. *)
Theorem applyToolPolicyPipeline_post_warning
    (I : Pipeline.Imports) (tools : list AnyAgentTool)
    (toolMeta : AnyAgentTool → option string)
    (steps : list Pipeline.ToolPolicyPipelineStep)
    (ctx : Pipeline.NamedProfileContext) :
  let without := Pipeline.applyToolPolicyPipeline I tools toolMeta steps None in
  let with_ctx := Pipeline.applyToolPolicyPipeline I tools toolMeta steps (Some ctx) in
  fst with_ctx = fst without
  ∧ ∃ post, snd with_ctx = snd without ++ post
            ∧ length post ≤ 1
            ∧ Spec.PostWarning ctx (fst with_ctx) post.
Proof.
  unfold Pipeline.applyToolPolicyPipeline.
  destruct (Pipeline.runSteps I _ _ tools steps) as [filtered warned]; simpl.
  split; [done|]. exists (postPipelineWarnings ctx filtered).
  rewrite app_nil_r. split; [done|].
  pose proof (postPipelineWarnings_spec ctx filtered) as Hspec.
  split; [|done]. destruct Hspec; simpl; lia.
Qed.

End PipelineWarnings.

(* ===================================================================== *)
(** ** The reset command                                                  *)
(* ===================================================================== *)

Section ResetCommand.
Import Reset.

Lemma truthyString_Some s : s ≠ EmptyString → truthyString (Some s) = Some s.
Proof.
  intros Hs. unfold truthyString, Js.nonEmpty.
  destruct (String.eqb_spec s EmptyString); [done|reflexivity].
Qed.

Lemma truthyString_is_Some x :
  is_Some (truthyString x) ↔ ∃ s, x = Some s ∧ s ≠ EmptyString.
Proof.
  unfold truthyString, Js.nonEmpty. destruct x as [s|].
  - destruct (String.eqb_spec s EmptyString) as [->|Hne]; simpl.
    + split; [by intros [? [=]]|]. intros (s & [= <-] & Hs). done.
    + split; [eauto|]. intros _. by eexists.
  - split; [by intros [? [=]]|]. by intros (s & [=] & _).
Qed.

Lemma truthyLength_true xs : truthyLength xs = true ↔ ∃ l, xs = Some l ∧ l ≠ [].
Proof.
  unfold truthyLength. destruct xs as [l|].
  - rewrite bool_decide_eq_true. destruct l; simpl.
    + split; [lia|]. by intros (l & [= <-] & Hl).
    + split; [eauto|lia].
  - split; [done|]. by intros (l & [=] & _).
Qed.

(** [hadOverrides] holds exactly when some override field is active. *)
Lemma hadOverrides_active entry :
  hadOverrides entry = true ↔ ∃ e, entry = Some e ∧ Spec.anyOverrideActive e.
Proof.
  unfold hadOverrides, Spec.anyOverrideActive. destruct entry as [e|].
  2:{ split; [done|]. by intros (e & [=] & _). }
  rewrite !orb_true_iff, !bool_decide_eq_true, truthyString_is_Some, !truthyLength_true.
  split.
  - intros H. exists e. split; [done|]. tauto.
  - intros (e' & [= <-] & H). tauto.
Qed.

Lemma clearOverrides_idem e : clearOverrides (clearOverrides e) = clearOverrides e.
Proof. done. Qed.

Lemma hadOverrides_cleared entry : hadOverrides (clearOverrides <$> entry) = false.
Proof. by destruct entry. Qed.

(** The handler on a well-formed reset command. *)
Lemma handleToolsResetCommand_run path key entry stores :
  path ≠ EmptyString → key ≠ EmptyString →
  handleToolsResetCommand (Spec.resetParams path key entry) true stores
  = (Spec.replied (if hadOverrides entry
                   then "Tool overrides cleared. Tools restored to config baseline."
                   else "No tool overrides were active."),
     (updateSessionStoreEntry stores path key clearOverrides,
      Spec.resetParams path key (clearOverrides <$> entry))).
Proof.
  intros Hp Hk. unfold handleToolsResetCommand, Spec.resetParams.
  cbn [command storePath sessionKey sessionEntry].
  rewrite !truthyString_Some by done. reflexivity.
Qed.

(** C5, as the handler has it: [had_overrides] is true exactly when an
    override field is active (a profile name that is not empty, an allow or
    deny list with an entry, or a listing mode); the reset clears the four
    fields in the store and in the session record; a second reset right
    after, on the updated session record or on the record read back from
    the store, finds the same state, leaves it as it is, and replies
    [No tool overrides were active.] *)
Theorem reset_reports_active_overrides_and_is_idempotent
    (path key : string) (entry : option SessionEntry) (stores : Stores) :
  path ≠ EmptyString → key ≠ EmptyString →
  let first := handleToolsResetCommand (Spec.resetParams path key entry) true stores in
  let second := handleToolsResetCommand (snd (snd first)) true (fst (snd first)) in
  (hadOverrides entry = true ↔ ∃ e, entry = Some e ∧ Spec.anyOverrideActive e)
  ∧ fst first
    = Spec.replied (if hadOverrides entry
                    then "Tool overrides cleared. Tools restored to config baseline."
                    else "No tool overrides were active.")
  ∧ fst (snd first) !! (path, key)
    = Some (clearOverrides (default emptyEntry (stores !! (path, key))))
  ∧ sessionEntry (snd (snd first)) = clearOverrides <$> entry
  ∧ fst second = Spec.replied "No tool overrides were active."
  ∧ snd second = snd first
  ∧ fst (handleToolsResetCommand
           (Spec.resetParams path key (fst (snd first) !! (path, key))) true
           (fst (snd first)))
    = Spec.replied "No tool overrides were active.".
Proof.
  intros Hp Hk first second. subst second first.
  rewrite !handleToolsResetCommand_run by done. simpl.
  rewrite !handleToolsResetCommand_run by done. simpl.
  rewrite hadOverrides_cleared.
  split; [apply hadOverrides_active|]. split; [done|].
  unfold updateSessionStoreEntry.
  rewrite lookup_insert_eq. split; [done|]. split; [done|]. split; [done|].
  simpl. rewrite insert_insert_eq. split; [|done]. f_equal.
  by destruct entry.
Qed.

(** Scenario S6: the first reset reports overrides, the second does not. *)
Lemma reset_reports_active_overrides_and_is_idempotent_witness :
  let first :=
    handleToolsResetCommand (Spec.resetParams "sessions.json" "main" (Some Sample.overridden))
      true ∅ in
  fst first = Spec.replied "Tool overrides cleared. Tools restored to config baseline."
  ∧ fst (handleToolsResetCommand (snd (snd first)) true (fst (snd first)))
    = Spec.replied "No tool overrides were active.".
Proof.
  destruct (reset_reports_active_overrides_and_is_idempotent
              "sessions.json" "main" (Some Sample.overridden) ∅)
    as (_ & Hfirst & _ & _ & Hsecond & _ & _); [discriminate..|].
  split; [exact Hfirst|exact Hsecond].
Defined.

(** C5 as stated fails on a record whose allow override is the empty list:
    the field is set, and the reset reports that nothing was active. *)
Lemma reset_reports_counterexample :
  Spec.anyOverrideSet Sample.emptyAllow
  ∧ hadOverrides (Some Sample.emptyAllow) = false
  ∧ fst (handleToolsResetCommand
           (Spec.resetParams "sessions.json" "main" (Some Sample.emptyAllow)) true ∅)
    = Spec.replied "No tool overrides were active.".
Proof.
  split; [right; left; by eexists|]. split; reflexivity.
Qed.

(** C10: a record whose only overrides are empty allow or deny lists makes
    the reset report [had_overrides = false] and reply
    [No tool overrides were active.], though the fields were present. *)
Theorem reset_ignores_empty_lists
    (path key : string) (e : SessionEntry) (stores : Stores) :
  path ≠ EmptyString → key ≠ EmptyString →
  toolsProfileOverride e = None →
  toolsPromptListingOverride e = None →
  toolsAllowOverride e = None ∨ toolsAllowOverride e = Some [] →
  toolsDenyOverride e = None ∨ toolsDenyOverride e = Some [] →
  hadOverrides (Some e) = false
  ∧ fst (handleToolsResetCommand (Spec.resetParams path key (Some e)) true stores)
    = Spec.replied "No tool overrides were active.".
Proof.
  intros Hp Hk Hprofile Hlisting Hallow Hdeny.
  assert (hadOverrides (Some e) = false) as Hhad.
  { unfold hadOverrides. rewrite Hprofile, Hlisting.
    destruct Hallow as [-> | ->], Hdeny as [-> | ->]; reflexivity. }
  split; [done|]. rewrite handleToolsResetCommand_run by done.
  cbn [fst]. by rewrite Hhad.
Qed.

(** The theorem on a record whose allow override is the empty list. *)
Lemma reset_ignores_empty_lists_witness :
  is_Some (toolsAllowOverride Sample.emptyAllow)
  ∧ fst (handleToolsResetCommand
           (Spec.resetParams "sessions.json" "main" (Some Sample.emptyAllow)) true ∅)
    = Spec.replied "No tool overrides were active.".
Proof.
  split; [by eexists|].
  apply (reset_ignores_empty_lists "sessions.json" "main" Sample.emptyAllow ∅);
    [discriminate|discriminate|reflexivity|reflexivity|by right|by left].
Defined.

End ResetCommand.

(* ===================================================================== *)
(** ** The cases of tool-policy-pipeline.test.ts                          *)
(* ===================================================================== *)

Section PipelineTests.
Import Catalog.
Import Pipeline(mkStep, mkContext).

(** "strips allowlists that would otherwise disable core tools" *)
Example test_strips_plugin_only_allowlist :
  Sample.names (applyToolPolicyPipeline [Sample.toolNamed "exec"; Sample.toolNamed "plugin_tool"]
           (λ t, if String.eqb (name t) "plugin_tool" then Some "foo" else None)
           [mkStep (Some (mkPolicy (Some ["plugin_tool"]) None)) "tools.allow" true] None)
  = ["exec"; "plugin_tool"].
Proof. vm_compute. reflexivity. Qed.

(** "warns about unknown allowlist entries" *)
Example test_warns_unknown_entries :
  snd (applyToolPolicyPipeline [Sample.toolNamed "exec"] Sample.noMeta
         [mkStep (Some (mkPolicy (Some ["wat"]) None)) "tools.allow" true] None)
  = ["tools: tools.allow allowlist contains unknown entries (wat). Ignoring allowlist so core tools remain available. Use tools.alsoAllow for additive plugin tool enablement."].
Proof. vm_compute. reflexivity. Qed.

(** "applies allowlist filtering when core tools are explicitly listed" *)
Example test_core_allowlist_applies :
  Sample.names (applyToolPolicyPipeline [Sample.toolNamed "exec"; Sample.toolNamed "process"]
           Sample.noMeta
           [mkStep (Some (mkPolicy (Some ["exec"]) None)) "tools.allow" true] None)
  = ["exec"].
Proof. vm_compute. reflexivity. Qed.

(** "deny wins: a tool in both allow and deny is excluded" *)
Example test_deny_wins :
  Sample.names (applyToolPolicyPipeline Sample.allTools Sample.noMeta
           [Sample.step (Some ["read"; "exec"; "message"]) (Some ["exec"]) "test"] None)
  = ["read"; "message"].
Proof. vm_compute. reflexivity. Qed.

(** "narrow-only: session override cannot reintroduce tools removed by
    earlier steps" *)
Example test_narrow_only :
  Sample.names (applyToolPolicyPipeline Sample.allTools Sample.noMeta
           [Sample.step (Some ["read"; "exec"]) None "sandbox";
            Sample.step (Some ["read"; "exec"; "write"; "message"]) None "session override"] None)
  = ["read"; "exec"].
Proof. vm_compute. reflexivity. Qed.

(** "ordering: session override runs after sandbox and subagent steps" *)
Example test_ordering :
  Sample.names (applyToolPolicyPipeline Sample.allTools Sample.noMeta
           [Sample.step (Some ["read"; "exec"; "message"; "grep"]) None "sandbox tools.allow";
            Sample.step (Some ["read"; "exec"; "message"]) None "subagent tools.allow";
            Sample.step None (Some ["exec"]) "session override"] None)
  = ["read"; "message"].
Proof. vm_compute. reflexivity. Qed.

(** "session deny cannot re-grant tools removed by sandbox" *)
Example test_session_cannot_regrant :
  Sample.names (applyToolPolicyPipeline Sample.allTools Sample.noMeta
           [Sample.step None (Some ["exec"; "write"]) "sandbox";
            Sample.step (Some ["read"; "exec"; "write"; "message"]) None "session override"] None)
  = ["read"; "message"].
Proof. vm_compute. reflexivity. Qed.

(** "default pipeline has exactly 7 steps" and "default pipeline step labels
    are ordered correctly" *)
Example test_default_pipeline_labels :
  Pipeline.slabel
    <$> Pipeline.buildDefaultToolPolicyPipelineSteps
          (Some (mkPolicy (Some ["read"]) None)) (Some "coding")
          (Some (mkPolicy (Some ["read"]) None)) (Some "coding")
          (Some (mkPolicy (Some ["read"]) None)) (Some (mkPolicy (Some ["read"]) None))
          (Some (mkPolicy (Some ["read"]) None)) (Some (mkPolicy (Some ["read"]) None))
          (Some (mkPolicy (Some ["read"]) None)) (Some "test")
  = ["tools.profile (coding)"; "tools.byProvider.profile (coding)"; "tools.allow";
     "tools.byProvider.allow"; "agents.test.tools.allow";
     "agents.test.tools.byProvider.allow"; "group tools.allow"].
Proof. vm_compute. reflexivity. Qed.

(** "warns when named profile results in zero tools" *)
Example test_warns_zero_tools :
  snd (applyToolPolicyPipeline Sample.threeTools Sample.noMeta
         [Sample.step (Some ["nonexistent"]) None "test"]
         (Some (mkContext "marketing" (Some ["message"]))))
  = ["Named profile " +:+ Js.quoted "marketing"
       +:+ " resulted in zero tools after policy filtering."].
Proof. vm_compute. reflexivity. Qed.

(** "warns when named profile results in only session_status" *)
Example test_warns_only_session_status :
  snd (applyToolPolicyPipeline Sample.threeTools Sample.noMeta
         [Sample.step (Some ["session_status"]) None "test"]
         (Some (mkContext "marketing" (Some ["message"]))))
  = ["Named profile " +:+ Js.quoted "marketing"
       +:+ " resulted in only session_status after policy filtering."].
Proof. vm_compute. reflexivity. Qed.

(** "warns when headline tools are all removed" *)
Example test_warns_headline_loss :
  snd (applyToolPolicyPipeline Sample.threeTools Sample.noMeta
         [Sample.step (Some ["read"; "exec"]) None "test"]
         (Some (mkContext "marketing" (Some ["message"; "web_search"]))))
  = ["Named profile " +:+ Js.quoted "marketing"
       +:+ " requested headline tools [message, web_search], but none remain after filtering. Effective tools: read, exec."].
Proof. vm_compute. reflexivity. Qed.

(** "does not warn when headline tools are present" *)
Example test_no_warning_when_headline_present :
  snd (applyToolPolicyPipeline Sample.threeTools Sample.noMeta []
         (Some (mkContext "coding" (Some ["read"; "exec"]))))
  = [].
Proof. vm_compute. reflexivity. Qed.

End PipelineTests.

(* ===================================================================== *)
(** ** More of tool-policy-shared.ts: lists and groups                    *)
(* ===================================================================== *)

Section NormalizedLists.
Import Js Shared.

Lemma toLowerCase_empty s : toLowerCase s = EmptyString ↔ s = EmptyString.
Proof. destruct s; simpl; split; intros; congruence. Qed.

(** A string result is never one of the inherited keys. *)
Lemma normalizeToolName_Str_own x s :
  normalizeToolName x = Str s → isInherited s = false.
Proof.
  unfold normalizeToolName.
  destruct (aliasOf_cases (toLowerCase (trim x))) as [[_ E]|[[_ E]|[[_ E]|[I E]]]];
    rewrite E; intros [= <-]; try reflexivity. exact I.
Qed.

(** The only names that normalize to the empty string are the blank ones. *)
Lemma normalizeToolName_empty x :
  normalizeToolName x = Str EmptyString ↔ trim x = EmptyString.
Proof.
  unfold normalizeToolName. split.
  - destruct (aliasOf_cases (toLowerCase (trim x))) as [[_ E]|[[_ E]|[[_ E]|[_ E]]]];
      rewrite E; intros [= H]. by apply toLowerCase_empty.
  - intros ->. reflexivity.
Qed.

Lemma elem_of_normalizeToolList l v :
  v ∈ normalizeToolList (Some l)
  ↔ truthy v = true ∧ ∃ x, x ∈ l ∧ normalizeToolName x = v.
Proof.
  unfold normalizeToolList.
  rewrite list_elem_of_In, List.filter_In, <- list_elem_of_In, list_elem_of_fmap.
  split.
  - intros [(x & -> & Hx) Ht]. split; [done|]. by exists x.
  - intros [Ht (x & Hx & <-)]. split; [|done]. by exists x.
Qed.

Lemma normalizeToolList_fixed names :
  Forall (λ s, s ≠ EmptyString ∧ normalizeToolName s = Str s) names →
  normalizeToolList (Some names) = Str <$> names.
Proof.
  unfold normalizeToolList. induction 1 as [|s names [Hne Hs] _ IH]; [done|].
  rewrite !fmap_cons, Hs. cbn [List.filter truthy].
  destruct (String.eqb_spec s EmptyString); [done|]. cbn [negb].
  by rewrite IH.
Qed.

(** X1: [normalizeToolList] returns nothing for a missing list, never
    returns an empty name, keeps every entry that is not blank, and a list
    of strings it has returned is returned unchanged when normalized again. *)
Theorem normalizeToolList_canonical (l names : list string) :
  normalizeToolList (Some l) = Str <$> names →
  normalizeToolList None = []
  ∧ Forall (λ s, s ≠ EmptyString) names
  ∧ (∀ x, x ∈ l → trim x ≠ EmptyString → normalizeToolName x ∈ Str <$> names)
  ∧ normalizeToolList (Some names) = Str <$> names.
Proof.
  intros Hl. split; [done|].
  assert (Forall (λ s, s ≠ EmptyString ∧ normalizeToolName s = Str s) names) as Hfix.
  { apply Forall_forall. intros s Hs.
    assert (Str s ∈ normalizeToolList (Some l)) as Hin.
    { rewrite Hl. apply list_elem_of_fmap. by exists s. }
    apply elem_of_normalizeToolList in Hin as (Ht & x & _ & Hx). split.
    - intros ->. simpl in Ht. discriminate.
    - by apply (normalizeToolName_idempotent_on_strings x). }
  split; [by eapply Forall_impl; [exact Hfix|intros ? []]|].
  split; [|by apply normalizeToolList_fixed].
  intros x Hx Hblank. rewrite <- Hl. apply elem_of_normalizeToolList.
  split; [|by exists x].
  destruct (normalizeToolName x) as [s|k] eqn:E; [|done]. simpl.
  destruct (String.eqb_spec s EmptyString) as [->|]; [|done].
  by apply normalizeToolName_empty in E.
Qed.

Lemma normalizeToolList_canonical_witness :
  normalizeToolList (Some ["exec"; "read"]) = [Str "exec"; Str "read"]
  ∧ normalizeToolName "READ " ∈ [Str "exec"; Str "read"].
Proof.
  destruct (normalizeToolList_canonical [" Bash"; ""; "READ "; "  "] ["exec"; "read"])
    as (_ & _ & Hkept & Hagain); [vm_compute; reflexivity|].
  split; [exact Hagain|].
  apply Hkept; [apply list_elem_of_In; simpl; tauto|vm_compute; discriminate].
Defined.

End NormalizedLists.

Section ExpandedGroups.
Import Js Shared.

Lemma setAdd_fold_NoDup {A} `{EqDecision A} (l seen : list A) :
  NoDup seen → NoDup (foldl setAdd seen l).
Proof.
  revert seen. induction l as [|x l IH]; intros seen Hseen; simpl; [done|].
  apply IH. unfold setAdd. case_bool_decide as Hx; [done|].
  apply NoDup_app. split; [done|]. split; [|apply NoDup_singleton].
  intros y Hy ->%list_elem_of_singleton. done.
Qed.

Lemma uniq_NoDup {A} `{EqDecision A} (l : list A) : NoDup (uniq l).
Proof. apply setAdd_fold_NoDup. constructor. Qed.

Lemma setAdd_fold_fresh {A} `{EqDecision A} (l seen : list A) :
  NoDup (seen ++ l) → foldl setAdd seen l = seen ++ l.
Proof.
  revert seen. induction l as [|x l IH]; intros seen Hnd; simpl; [by rewrite app_nil_r|].
  apply NoDup_app in Hnd as Hparts. destruct Hparts as (_ & Hdisj & _).
  unfold setAdd at 2. rewrite bool_decide_eq_false_2.
  - rewrite IH; rewrite <- app_assoc; done.
  - intros Hx. apply (Hdisj x Hx). by left.
Qed.

(** A list without repetitions is its own [Set]. *)
Lemma uniq_fixed {A} `{EqDecision A} (l : list A) : NoDup l → uniq l = l.
Proof. intros Hnd. unfold uniq. by rewrite setAdd_fold_fresh. Qed.

(** Every member of every group is a plain tool id: not empty, canonical,
    and not a group or an inherited key itself. *)
Lemma group_members_plain :
  map_Forall (λ _ members,
                Forall (λ m, m ≠ EmptyString ∧ normalizeToolName m = Str m
                             ∧ toolGroup (Str m) = None) members) TOOL_GROUPS.
Proof.
  apply map_Forall_to_list.
  set (groups := map_to_list TOOL_GROUPS). vm_compute in groups. subst groups.
  repeat (apply Forall_cons; split;
          [cbn [uncurry fst snd];
           repeat (apply Forall_cons; split;
                   [split; [discriminate|split; vm_compute; reflexivity]|]);
           constructor|]).
  constructor.
Qed.

Lemma toolGroup_lookup s :
  toolGroup (Str s)
  = match TOOL_GROUPS !! s with
    | Some group => Some (GroupArray group)
    | None => if isInherited s then Some (GroupInherited s) else None
    end.
Proof.
  unfold toolGroup, Js.get. rewrite lookup_fmap.
  by destruct (TOOL_GROUPS !! s).
Qed.

Lemma toolGroup_of_normalized x s :
  normalizeToolName x = Str s → toolGroup (Str s) = GroupArray <$> TOOL_GROUPS !! s.
Proof.
  intros Hs%normalizeToolName_Str_own. rewrite toolGroup_lookup.
  destruct (TOOL_GROUPS !! s); [done|]. by rewrite Hs.
Qed.

(** The values of a normalized list never read an inherited member of
    [TOOL_GROUPS]. *)
Lemma toolGroup_never_inherited names v k :
  v ∈ normalizeToolList names → toolGroup v ≠ Some (GroupInherited k).
Proof.
  destruct names as [l|]; [|by intros ?%elem_of_nil].
  intros (_ & x & _ & Hx)%elem_of_normalizeToolList.
  destruct v as [s|key]; [|done].
  rewrite (toolGroup_of_normalized x s Hx). by destruct (TOOL_GROUPS !! s).
Qed.

Lemma expandLoop_concat normalized : ∀ expanded,
  (∀ v k, v ∈ normalized → toolGroup v ≠ Some (GroupInherited k)) →
  expandLoop normalized expanded
  = Some (expanded ++ concat (Spec.expandOne <$> normalized)).
Proof.
  induction normalized as [|v rest IH]; intros expanded Hsafe; simpl.
  { by rewrite app_nil_r. }
  assert (∀ v' k, v' ∈ rest → toolGroup v' ≠ Some (GroupInherited k)) as Hrest.
  { intros v' k Hv'. apply Hsafe. by right. }
  unfold Spec.expandOne at 1.
  destruct (toolGroup v) as [[group|k]|] eqn:Hg.
  - rewrite IH, <- app_assoc; done.
  - exfalso. apply (Hsafe v k); [by left|done].
  - rewrite IH, <- app_assoc; done.
Qed.

(** What [expandToolGroups] returns, for every input. *)
Lemma expandToolGroups_value names :
  expandToolGroups names
  = Some (uniq (concat (Spec.expandOne <$> normalizeToolList names))).
Proof.
  unfold expandToolGroups. rewrite expandLoop_concat; [done|].
  intros v k. apply toolGroup_never_inherited.
Qed.

Lemma elem_of_expandOne v n :
  v ∈ Spec.expandOne n
  ↔ (∃ group, toolGroup n = Some (GroupArray group) ∧ v ∈ Str <$> group)
    ∨ ((∀ group, toolGroup n ≠ Some (GroupArray group)) ∧ v = n).
Proof.
  unfold Spec.expandOne. destruct (toolGroup n) as [[group|k]|].
  - split; [intros H; left; by exists group|].
    intros [(g & [= <-] & H)|[H _]]; [done|]. by destruct (H group).
  - rewrite list_elem_of_singleton. split; [intros ->; by right|].
    intros [(g & [=] & _)|[_ H]]; done.
  - rewrite list_elem_of_singleton. split; [intros ->; by right|].
    intros [(g & [=] & _)|[_ H]]; done.
Qed.

Lemma expanded_value_plain names v :
  v ∈ concat (Spec.expandOne <$> normalizeToolList names) →
  truthy v = true ∧ toolGroup v = None
  ∧ ∀ s, v = Str s → normalizeToolName s = Str s.
Proof.
  intros (piece & Hpiece & Hv)%list_elem_of_In%in_concat.
  apply list_elem_of_In, list_elem_of_fmap in Hpiece as (n & -> & Hn).
  apply list_elem_of_In, elem_of_expandOne in Hv as [(group & Hg & Hv)|[Hnone ->]].
  - apply list_elem_of_fmap in Hv as (m & -> & Hm).
    destruct n as [s|key]; [|done].
    rewrite toolGroup_lookup in Hg.
    destruct (TOOL_GROUPS !! s) as [members|] eqn:Hs.
    2:{ destruct (isInherited s); discriminate. }
    injection Hg as ->.
    pose proof (group_members_plain s group Hs) as Hplain.
    rewrite Forall_forall in Hplain. destruct (Hplain m Hm) as (Hne & Hfix & Hnogroup).
    split; [|split; [done|by intros ? [= <-]]].
    cbn [truthy]. clear -Hne.
    destruct (String.eqb_spec m EmptyString) as [->|]; [|reflexivity].
    exfalso. apply Hne. reflexivity.
  - destruct names as [l|]; [|by apply elem_of_nil in Hn].
    apply elem_of_normalizeToolList in Hn as (Ht & x & _ & Hx).
    split; [done|]. split.
    + destruct n as [s|key]; [|done].
      rewrite (toolGroup_of_normalized x s Hx) in *.
      destruct (TOOL_GROUPS !! s) as [members|]; [|done]. by destruct (Hnone members).
    + intros s ->. by apply (normalizeToolName_idempotent_on_strings x).
Qed.

(** X2: [expandToolGroups] never throws, although [TOOL_GROUPS] is a plain
    object: it returns a list without repetitions, without empty names and
    without group references, and every string in it is a canonical name. *)
Theorem expandToolGroups_safe (names : option (list string)) :
  ∃ expanded, expandToolGroups names = Some expanded
    ∧ NoDup expanded
    ∧ Forall (λ v, truthy v = true ∧ toolGroup v = None
                   ∧ ∀ s, v = Str s → normalizeToolName s = Str s) expanded.
Proof.
  eexists. split; [apply expandToolGroups_value|]. split; [apply uniq_NoDup|].
  apply Forall_forall. intros v Hv. rewrite elem_of_uniq in Hv.
  exact (expanded_value_plain names v Hv).
Qed.

(** X3: a tool name is in the result of [expandToolGroups] exactly when it
    is a member of a group the list names, or an entry of the list that
    names no group and is not blank. *)
Theorem expandToolGroups_members (l : list string) (v : Js.value) :
  (∃ expanded, expandToolGroups (Some l) = Some expanded ∧ v ∈ expanded)
  ↔ ∃ x, x ∈ l ∧ truthy (normalizeToolName x) = true
         ∧ ((∃ group, toolGroup (normalizeToolName x) = Some (GroupArray group)
                      ∧ v ∈ Str <$> group)
            ∨ (toolGroup (normalizeToolName x) = None ∧ v = normalizeToolName x)).
Proof.
  rewrite expandToolGroups_value. split.
  - intros (expanded & [= <-] & Hv). rewrite elem_of_uniq in Hv.
    apply list_elem_of_In, in_concat in Hv as (piece & Hpiece & Hv).
    apply list_elem_of_In, list_elem_of_fmap in Hpiece as (n & -> & Hn).
    pose proof Hn as Hsafe.
    apply elem_of_normalizeToolList in Hn as (Ht & x & Hx & <-).
    exists x. split; [done|]. split; [done|].
    apply list_elem_of_In, elem_of_expandOne in Hv as [?|[Hnone ->]]; [by left|right].
    split; [|done].
    destruct (toolGroup (normalizeToolName x)) as [[group|k]|] eqn:Hg; [| |done].
    + by destruct (Hnone group).
    + by destruct (toolGroup_never_inherited (Some l) _ k Hsafe).
  - intros (x & Hx & Ht & Hv). eexists. split; [done|].
    apply elem_of_uniq, list_elem_of_In, in_concat.
    exists (Spec.expandOne (normalizeToolName x)). split.
    + apply list_elem_of_In, list_elem_of_fmap. eexists. split; [done|].
      apply elem_of_normalizeToolList. split; [done|]. by exists x.
    + apply list_elem_of_In, elem_of_expandOne.
      destruct Hv as [?|[Hnone ->]]; [by left|right]. split; [|done].
      intros group. by rewrite Hnone.
Qed.

(** X4: expanding an expanded list of names changes nothing. *)
Theorem expandToolGroups_idempotent (l names : list string) :
  expandToolGroups (Some l) = Some (Str <$> names) →
  expandToolGroups (Some names) = Some (Str <$> names).
Proof.
  intros Hl.
  destruct (expandToolGroups_safe (Some l)) as (expanded & He & Hnd & Hplain).
  rewrite Hl in He. injection He as <-.
  rewrite expandToolGroups_value. f_equal.
  rewrite Forall_forall in Hplain.
  assert (Forall (λ s, s ≠ EmptyString ∧ normalizeToolName s = Str s) names) as Hfix.
  { apply Forall_forall. intros s Hs.
    destruct (Hplain (Str s)) as (Ht & _ & Hcanon); [apply list_elem_of_fmap; by exists s|].
    split; [|by apply Hcanon]. intros ->. simpl in Ht. discriminate. }
  rewrite (normalizeToolList_fixed names Hfix).
  assert (concat (Spec.expandOne <$> (Str <$> names)) = Str <$> names) as ->.
  { clear Hl Hnd Hfix. induction names as [|s names IH]; [done|].
    rewrite !fmap_cons. cbn [concat]. unfold Spec.expandOne at 1.
    destruct (Hplain (Str s)) as (_ & -> & _); [by left|].
    rewrite IH; [done|]. intros v Hv. apply Hplain. by right. }
  by apply uniq_fixed.
Qed.

Lemma expandToolGroups_idempotent_witness :
  expandToolGroups (Some ["read"; "write"; "edit"; "apply_patch"; "exec"])
  = Some (Str <$> ["read"; "write"; "edit"; "apply_patch"; "exec"]).
Proof.
  apply (expandToolGroups_idempotent ["group:fs"; " Bash "; "READ"; ""]).
  vm_compute. reflexivity.
Defined.

End ExpandedGroups.

(* ===================================================================== *)
(** ** More of the tool catalog: lookups, sections and groups             *)
(* ===================================================================== *)

Section CatalogLookups.
Import Catalog.

Lemma mapOfEntries_fold {A} (entries : list (string * A)) : ∀ (m : gmap string A) k v,
  NoDup (entries.*1) →
  (foldl (λ (m : gmap string A) kv, <[kv.1 := kv.2]> m) m entries) !! k = Some v
  ↔ (k, v) ∈ entries ∨ ((k ∉ entries.*1) ∧ m !! k = Some v).
Proof.
  induction entries as [|[k' v'] entries IH]; intros m k v Hnd; simpl.
  { split; [intros H; right; split; [apply not_elem_of_nil|done]|].
    intros [H|[_ H]]; [by apply elem_of_nil in H|done]. }
  apply NoDup_cons in Hnd as [Hfresh Hnd].
  rewrite IH by done. rewrite lookup_insert, elem_of_cons, not_elem_of_cons.
  case_decide as Hk; simpl.
  - subst k'. split.
    + intros [H|[Hk [= <-]]]; [by left; right|by left; left].
    + intros [[[= <-]|H]|[[Hne _] _]]; [|by left|done].
      right. split; [done|reflexivity].
  - split.
    + intros [H|[H1 H2]]; [by left; right|]. right. split; [|done]. split; [congruence|done].
    + intros [[[= <- <-]|H]|[[_ H1] H2]]; [done|by left|by right].
Qed.

Lemma mapOfEntries_lookup {A} (entries : list (string * A)) k v :
  NoDup (entries.*1) → mapOfEntries entries !! k = Some v ↔ (k, v) ∈ entries.
Proof.
  intros Hnd. unfold mapOfEntries. rewrite mapOfEntries_fold by done.
  rewrite lookup_empty. split; [intros [H|[_ [=]]]; done|by left].
Qed.

(** The data-model invariant: catalog ids are unique. *)
Lemma catalog_ids_NoDup : NoDup (id <$> CORE_TOOL_DEFINITIONS).
Proof.
  assert (Js.uniq (id <$> CORE_TOOL_DEFINITIONS) = id <$> CORE_TOOL_DEFINITIONS) as <-
    by (vm_compute; reflexivity).
  apply uniq_NoDup.
Qed.

Lemma CORE_TOOL_BY_ID_lookup k t :
  CORE_TOOL_BY_ID !! k = Some t ↔ t ∈ CORE_TOOL_DEFINITIONS ∧ id t = k.
Proof.
  unfold CORE_TOOL_BY_ID. rewrite mapOfEntries_lookup.
  - rewrite list_elem_of_fmap. split.
    + intros (t' & [= -> ->] & Ht). done.
    + intros [Ht <-]. by exists t.
  - rewrite <- list_fmap_compose. apply catalog_ids_NoDup.
Qed.

(** X5: the id index of the catalog is exact: [isKnownCoreToolId] holds for
    the ids of [CORE_TOOL_DEFINITIONS] and for nothing else (inherited keys
    included), [resolveCoreToolProfiles] returns the profiles of the
    definition with that id, and the empty list for an unknown id. *)
Theorem catalog_index_exact (toolId : string) :
  (isKnownCoreToolId toolId = true ↔ toolId ∈ id <$> CORE_TOOL_DEFINITIONS)
  ∧ (∀ t, t ∈ CORE_TOOL_DEFINITIONS →
       CORE_TOOL_BY_ID !! (id t) = Some t ∧ resolveCoreToolProfiles (id t) = profiles t)
  ∧ (isKnownCoreToolId toolId = false → resolveCoreToolProfiles toolId = [])
  ∧ (Js.isInherited toolId = true → isKnownCoreToolId toolId = false).
Proof.
  split; [|split; [|split]].
  - unfold isKnownCoreToolId. rewrite bool_decide_eq_true, list_elem_of_fmap. split.
    + intros [t Ht]. apply CORE_TOOL_BY_ID_lookup in Ht as [Ht <-]. by exists t.
    + intros (t & -> & Ht). exists t. by apply CORE_TOOL_BY_ID_lookup.
  - intros t Ht. assert (CORE_TOOL_BY_ID !! (id t) = Some t) as H
      by (by apply CORE_TOOL_BY_ID_lookup).
    split; [done|]. unfold resolveCoreToolProfiles. by rewrite H.
  - unfold isKnownCoreToolId, resolveCoreToolProfiles.
    rewrite bool_decide_eq_false. destruct (CORE_TOOL_BY_ID !! toolId); [|done].
    intros H. destruct H. by eexists.
  - intros Hin. unfold isKnownCoreToolId. apply bool_decide_eq_false. intros [t Ht].
    apply CORE_TOOL_BY_ID_lookup in Ht as [Ht <-]. vm_compute in Ht.
    repeat (apply elem_of_cons in Ht as [->|Ht]; [vm_compute in Hin; discriminate|]).
    by apply elem_of_nil in Ht.
Qed.

(** X6: the two views of profile membership agree: a tool id is in
    [listCoreToolIdsForProfile(p)] exactly when [p] is among
    [resolveCoreToolProfiles(id)]; so the allow list of a built-in profile
    holds known tools only, namely those that list the profile. *)
Theorem profile_views_agree (toolId : string) (p : ToolProfileId) :
  (toolId ∈ listCoreToolIdsForProfile p ↔ p ∈ resolveCoreToolProfiles toolId)
  ∧ (p ≠ Full →
     ∃ pol, resolveCoreToolProfilePolicy (Some (profileIdName p)) = Some pol
            ∧ deny pol = None
            ∧ (toolId ∈ default [] (allow pol)
               ↔ isKnownCoreToolId toolId = true ∧ p ∈ resolveCoreToolProfiles toolId)).
Proof.
  assert (toolId ∈ listCoreToolIdsForProfile p ↔ p ∈ resolveCoreToolProfiles toolId) as Hviews.
  { unfold listCoreToolIdsForProfile, resolveCoreToolProfiles.
    rewrite list_elem_of_fmap. split.
    - intros (t & -> & Ht). apply list_elem_of_In, List.filter_In in Ht as [Ht Hp].
      apply list_elem_of_In in Ht. apply bool_decide_eq_true in Hp.
      assert (CORE_TOOL_BY_ID !! (id t) = Some t) as -> by (by apply CORE_TOOL_BY_ID_lookup).
      done.
    - destruct (CORE_TOOL_BY_ID !! toolId) as [t|] eqn:Ht; [|by intros ?%elem_of_nil].
      apply CORE_TOOL_BY_ID_lookup in Ht as [Ht <-]. intros Hp.
      exists t. split; [done|]. apply list_elem_of_In, List.filter_In.
      split; [by apply list_elem_of_In|by apply bool_decide_eq_true]. }
  split; [done|]. intros Hp.
  exists (mkPolicy (Some (listCoreToolIdsForProfile p)) None).
  split; [by destruct p|]. split; [done|]. simpl. rewrite Hviews.
  split; [|by intros []]. intros Hin. split; [|done].
  unfold isKnownCoreToolId, resolveCoreToolProfiles in *. apply bool_decide_eq_true.
  destruct (CORE_TOOL_BY_ID !! toolId); [by eexists|by apply elem_of_nil in Hin].
Qed.

Lemma profile_views_agree_witness :
  "message" ∈ default [] (allow (mkPolicy (Some (listCoreToolIdsForProfile Messaging)) None))
  ↔ isKnownCoreToolId "message" = true ∧ Messaging ∈ resolveCoreToolProfiles "message".
Proof.
  destruct (profile_views_agree "message" Messaging) as [_ H].
  destruct H as (pol & Hpol & _ & Hiff); [discriminate|].
  vm_compute in Hpol. injection Hpol as <-. exact Hiff.
Defined.

(** The definition of [listCoreToolSections], as an equation the virtual
    machine checks. *)
Lemma listCoreToolSections_eq :
  listCoreToolSections
  = List.filter (λ s, bool_decide (0 < length (section_tools s)))
      ((λ section : string * string,
          {| section_id := section.1;
             section_label := section.2;
             section_tools :=
               (λ t, {| entry_id := id t; entry_label := label t;
                        entry_description := description t |})
                 <$> List.filter (λ t, String.eqb (sectionId t) section.1)
                       CORE_TOOL_DEFINITIONS |})
         <$> CORE_TOOL_SECTION_ORDER).
Proof. vm_compute. reflexivity. Qed.

(** Every entry of a section comes from a definition of that section. *)
Lemma section_entries_from (defs : list CoreToolDefinition)
    (order : list (string * string)) s e :
  s ∈ (λ section : string * string,
         {| section_id := section.1;
            section_label := section.2;
            section_tools :=
              (λ t, {| entry_id := id t; entry_label := label t;
                       entry_description := description t |})
                <$> List.filter (λ t, String.eqb (sectionId t) section.1) defs |})
        <$> order →
  e ∈ section_tools s →
  ∃ t, t ∈ defs ∧ sectionId t = section_id s
       ∧ id t = entry_id e ∧ label t = entry_label e
       ∧ description t = entry_description e.
Proof.
  intros Hs He. apply list_elem_of_fmap in Hs as ([sid slabel] & -> & _).
  cbn [section_id section_tools fst snd] in He |- *.
  apply list_elem_of_fmap in He as (t & -> & Ht).
  apply list_elem_of_In, List.filter_In in Ht as [Ht Hsec].
  exists t. split; [by apply list_elem_of_In|]. split; [|done].
  by apply String.eqb_eq.
Qed.

(** X7: [listCoreToolSections] lists the whole catalog, section by section,
    in the order of [CORE_TOOL_DEFINITIONS]: no tool is dropped or listed
    twice, no section is empty or repeated, and every entry carries the id,
    label and description of a definition of that section. *)
Theorem listCoreToolSections_partition :
  concat ((λ s, entry_id <$> section_tools s) <$> listCoreToolSections)
    = id <$> CORE_TOOL_DEFINITIONS
  ∧ Forall (λ s, section_tools s ≠ []) listCoreToolSections
  ∧ NoDup (section_id <$> listCoreToolSections)
  ∧ (∀ toolId, isKnownCoreToolId toolId = true
       ↔ ∃ s, s ∈ listCoreToolSections ∧ toolId ∈ entry_id <$> section_tools s)
  ∧ (∀ s e, s ∈ listCoreToolSections → e ∈ section_tools s →
       ∃ t, t ∈ CORE_TOOL_DEFINITIONS ∧ sectionId t = section_id s
            ∧ id t = entry_id e ∧ label t = entry_label e
            ∧ description t = entry_description e).
Proof.
  assert (concat ((λ s, entry_id <$> section_tools s) <$> listCoreToolSections)
          = id <$> CORE_TOOL_DEFINITIONS) as Hall by (vm_compute; reflexivity).
  split; [done|]. split; [|split; [|split]].
  - apply Forall_forall. intros s Hs Hempty. rewrite listCoreToolSections_eq in Hs.
    apply list_elem_of_In, List.filter_In in Hs as [_ Hs].
    apply bool_decide_eq_true in Hs. rewrite Hempty in Hs. simpl in Hs. lia.
  - assert (Js.uniq (section_id <$> listCoreToolSections)
            = section_id <$> listCoreToolSections) as <- by (vm_compute; reflexivity).
    apply uniq_NoDup.
  - intros toolId. destruct (catalog_index_exact toolId) as [-> _].
    rewrite <- Hall, list_elem_of_In, in_concat. split.
    + intros (piece & Hpiece & Hin).
      apply list_elem_of_In, list_elem_of_fmap in Hpiece as (s & -> & Hs).
      exists s. split; [done|]. by apply list_elem_of_In.
    + intros (s & Hs & Hin). eexists. split; [|by apply list_elem_of_In].
      apply list_elem_of_In, list_elem_of_fmap. by exists s.
  - intros s e Hs He. rewrite listCoreToolSections_eq in Hs.
    apply list_elem_of_In, List.filter_In in Hs as [Hs _].
    apply list_elem_of_In in Hs.
    exact (section_entries_from CORE_TOOL_DEFINITIONS CORE_TOOL_SECTION_ORDER s e Hs He).
Qed.

(** X8: the group map agrees with the sections: [group:<section id>] is the
    list of that section's tool ids, the only other key is [group:openclaw],
    and every member of every group is a known core tool id. *)
Theorem CORE_TOOL_GROUPS_sections :
  Forall (λ s, CORE_TOOL_GROUPS !! ("group:" +:+ section_id s)
               = Some (entry_id <$> section_tools s)) listCoreToolSections
  ∧ CORE_TOOL_GROUPS !! "group:openclaw"
    = Some (id <$> List.filter includeInOpenClawGroup CORE_TOOL_DEFINITIONS)
  ∧ (∀ key members, CORE_TOOL_GROUPS !! key = Some members →
       (key = "group:openclaw"
        ∨ ∃ s, s ∈ listCoreToolSections ∧ key = "group:" +:+ section_id s)
       ∧ members ≠ []
       ∧ Forall (λ m, isKnownCoreToolId m = true) members).
Proof.
  split; [|split].
  - unfold listCoreToolSections.
    set (sections := List.filter _ _). vm_compute in sections. subst sections.
    repeat (constructor; [vm_compute; reflexivity|]). constructor.
  - vm_compute. reflexivity.
  - intros key members Hkey. apply elem_of_map_to_list in Hkey.
    assert (key ∈ "group:openclaw"
                  :: ((λ s, "group:" +:+ section_id s) <$> listCoreToolSections)
            ∧ members ≠ []
            ∧ Forall (λ m, isKnownCoreToolId m = true) members) as (Hk & Hne & Hknown).
    { revert Hkey.
      set (groups := map_to_list CORE_TOOL_GROUPS). vm_compute in groups. subst groups.
      set (keys := "group:openclaw" :: _). vm_compute in keys. subst keys.
      intros Hkey.
      repeat (apply elem_of_cons in Hkey as [[= -> ->]|Hkey];
              [split; [apply list_elem_of_In; simpl; tauto|];
               split; [discriminate|];
               repeat (constructor; [vm_compute; reflexivity|]); constructor|]).
      by apply elem_of_nil in Hkey. }
    split; [|done].
    apply elem_of_cons in Hk as [->|Hk]; [by left|right].
    apply list_elem_of_fmap in Hk as (s & -> & Hs). by exists s.
Qed.

End CatalogLookups.

(* ===================================================================== *)
(** ** More of the profile resolvers                                      *)
(* ===================================================================== *)

Section ResolverEdges.
Import Catalog.

(** What [resolveNamedToolProfilePolicy] returns once the first lookup
    has found a profile. *)
Lemma resolveNamed_value profileName namedProfiles profile :
  namedProfile namedProfiles profileName = Some profile →
  resolveNamedToolProfilePolicy profileName namedProfiles
  = Returned (merge
      {| chain := Spec.chainOf namedProfiles profileName;
         visited := list_to_set (Spec.chainOf namedProfiles profileName);
         allAllow := Spec.allAllowOf
                       (Spec.links namedProfiles (Spec.chainOf namedProfiles profileName));
         allDeny := Spec.allDenyOf
                      (Spec.links namedProfiles (Spec.chainOf namedProfiles profileName)) |}).
Proof.
  intros Hp. unfold resolveNamedToolProfilePolicy, resolveNamedWith. rewrite Hp.
  by rewrite (walk_from_start namedProfiles _ _ profile).
Qed.

Lemma effective_allow_disjoint all_allow all_deny t :
  t ∈ Spec.effective_allow all_allow all_deny → t ∉ Spec.effective_deny all_deny.
Proof.
  unfold Spec.effective_allow, Spec.effective_deny.
  rewrite list_elem_of_In, List.filter_In, negb_true_iff, bool_decide_eq_false, dedup_elem_of.
  by intros [_ ?].
Qed.

(** X9: a policy returned by [resolveNamedToolProfilePolicy] is well
    formed: a list that is present is not empty and equals the effective
    list of the trace, at least one list is present, no list repeats an
    entry, no tool is both allowed and denied, and the chain starts with
    the name asked for. *)
Theorem resolved_policy_well_formed
    (profileName : string) (namedProfiles : gmap string NamedProfileInput)
    (res : Resolved) :
  resolveNamedToolProfilePolicy profileName namedProfiles = Returned (Some res) →
  allow (policy res) ≠ Some [] ∧ deny (policy res) ≠ Some []
  ∧ default [] (allow (policy res)) = effectiveAllow (trace res)
  ∧ default [] (deny (policy res)) = effectiveDeny (trace res)
  ∧ (is_Some (allow (policy res)) ∨ is_Some (deny (policy res)))
  ∧ NoDup (effectiveAllow (trace res)) ∧ NoDup (effectiveDeny (trace res))
  ∧ (∀ t, t ∈ effectiveAllow (trace res) → t ∉ effectiveDeny (trace res))
  ∧ head (resolvedFrom (trace res)) = Some profileName.
Proof.
  destruct (namedProfile namedProfiles profileName) as [profile|] eqn:Hp.
  2:{ unfold resolveNamedToolProfilePolicy, resolveNamedWith. rewrite Hp. discriminate. }
  rewrite (resolveNamed_value _ _ profile Hp), merge_spec. cbv zeta.
  cbn [allAllow allDeny chain].
  set (ls := Spec.links _ _).
  set (ea := Spec.effective_allow _ _). set (ed := Spec.effective_deny _).
  case_bool_decide as Hempty; [discriminate|]. intros [= <-].
  cbn [policy trace allow deny effectiveAllow effectiveDeny resolvedFrom].
  assert (NoDup ea) as Hea
    by apply NoDup_ListNoDup, List.NoDup_filter, NoDup_ListNoDup, dedup_NoDup.
  assert (NoDup ed) as Hed by apply dedup_NoDup.
  assert (∀ t, t ∈ ea → t ∉ ed) as Hdisj by apply effective_allow_disjoint.
  clearbody ea ed.
  do 2 (split; [case_bool_decide as H; [discriminate|intros [= E]; by rewrite E in H]|]).
  do 2 (split; [case_bool_decide as H; simpl; [by rewrite H|done]|]).
  split; [|done].
  do 2 case_bool_decide; [by destruct Hempty|right|left|left]; by eexists.
Qed.

Lemma resolved_policy_well_formed_witness :
  ∃ res, resolveNamedToolProfilePolicy "a" Sample.cyclic = Returned (Some res)
         ∧ allow (policy res) ≠ Some []
         ∧ ∀ t, t ∈ effectiveAllow (trace res) → t ∉ effectiveDeny (trace res).
Proof.
  eexists. split; [vm_compute; reflexivity|].
  destruct (resolved_policy_well_formed "a" Sample.cyclic
              (mkResolved (mkPolicy (Some ["read"; "write"]) (Some ["exec"]))
                 (mkTrace ["a"; "b"] ["read"; "write"] ["exec"])))
    as (Ha & _ & _ & _ & _ & _ & _ & Hdisj & _); [vm_compute; reflexivity|].
  split; [exact Ha|exact Hdisj].
Defined.

Lemma coreProfile_not_inherited n : coreProfile n = None → Js.isInherited n = false.
Proof.
  unfold coreProfile, Js.get. destruct (CORE_TOOL_PROFILES !! n); [done|].
  by destruct (Js.isInherited n).
Qed.

(** X10: a name that the map does not define resolves to nothing, also
    when the lookup finds an inherited member of the object. *)
Theorem resolveNamed_undefined
    (profileName : string) (namedProfiles : gmap string NamedProfileInput) :
  namedProfiles !! profileName = None →
  resolveNamedToolProfilePolicy profileName namedProfiles = Returned None.
Proof.
  intros Hnone.
  destruct (namedProfile namedProfiles profileName) as [profile|] eqn:Hp.
  2:{ unfold resolveNamedToolProfilePolicy, resolveNamedWith. by rewrite Hp. }
  assert (profile = mkNamed None None None) as ->.
  { unfold namedProfile, Js.get in Hp. rewrite Hnone in Hp.
    destruct (Js.isInherited profileName); by simplify_eq. }
  rewrite (resolveNamed_value _ _ _ Hp).
  unfold Spec.chainOf. rewrite Hp.
  cbn [Spec.parentsOf MAX_EXTENDS_DEPTH Nat.sub extends].
  unfold Spec.links. rewrite Hp. reflexivity.
Qed.

Lemma resolveNamed_undefined_witness :
  resolveNamedToolProfilePolicy "constructor" Sample.cyclic = Returned None
  ∧ resolveNamedToolProfilePolicy "c" Sample.cyclic = Returned None.
Proof.
  split; apply resolveNamed_undefined; reflexivity.
Defined.

Lemma namedProfile_insert_ne (namedProfiles : gmap string NamedProfileInput) b x k :
  b ≠ k → namedProfile (<[b := x]> namedProfiles) k = namedProfile namedProfiles k.
Proof. intros Hne. unfold namedProfile, Js.get. by rewrite lookup_insert_ne. Qed.

Lemma walkBody_insert_builtin (namedProfiles : gmap string NamedProfileInput) b x w cur :
  is_Some (coreProfile b) →
  walkBody (<[b := x]> namedProfiles) w cur = walkBody namedProfiles w cur.
Proof.
  intros [pol Hb]. unfold walkBody.
  destruct (extends cur) as [parent|]; [|done].
  destruct (negb (Js.nonEmpty parent)); [done|].
  repeat case_bool_decide; try done.
  destruct (coreProfile parent) eqn:Hparent; [done|].
  rewrite namedProfile_insert_ne; [done|]. congruence.
Qed.

Lemma walk_insert_builtin (namedProfiles : gmap string NamedProfileInput) b x fuel :
  is_Some (coreProfile b) →
  ∀ w current,
    walk fuel (<[b := x]> namedProfiles) w current = walk fuel namedProfiles w current.
Proof.
  intros Hb. induction fuel as [|fuel IH]; intros w [cur|]; simpl; try done.
  rewrite walkBody_insert_builtin by done.
  destruct (walkBody namedProfiles w cur) as [w' next]. apply IH.
Qed.

(** X11: a named profile called like a built-in profile (or like an
    inherited member) is never reached through [extends]: defining or
    changing it does not change what any other profile resolves to. *)
Theorem builtin_name_shadows_named
    (profileName b : string) (x : NamedProfileInput)
    (namedProfiles : gmap string NamedProfileInput) :
  is_Some (coreProfile b) → b ≠ profileName →
  resolveNamedToolProfilePolicy profileName (<[b := x]> namedProfiles)
  = resolveNamedToolProfilePolicy profileName namedProfiles.
Proof.
  intros Hb Hne. unfold resolveNamedToolProfilePolicy, resolveNamedWith.
  rewrite namedProfile_insert_ne by done.
  destruct (namedProfile namedProfiles profileName); [|done].
  by rewrite walk_insert_builtin.
Qed.

Lemma builtin_name_shadows_named_witness :
  resolveNamedToolProfilePolicy "dev" Sample.shadowed
  = resolveNamedToolProfilePolicy "dev"
      (<["dev" := mkNamed (Some "coding") None (Some ["exec"])]> ∅).
Proof.
  apply (builtin_name_shadows_named "dev" "coding"); [by eexists|discriminate].
Defined.

Lemma resolveCore_builtin b pol :
  resolveCoreToolProfilePolicy (Some b) = Some pol →
  coreProfile b = Some pol ∧ deny pol = None ∧ Js.nonEmpty b = true
  ∧ ∃ ids, allow pol = Some ids ∧ ids ≠ [] ∧ Spec.dedup ids = ids.
Proof.
  intros Hb. destruct (decide (b ∈ ["minimal"; "coding"; "messaging"])) as [Hin|Hout].
  - repeat (apply elem_of_cons in Hin as [->|Hin];
            [vm_compute in Hb; injection Hb as <-;
             split; [vm_compute; reflexivity|]; split; [reflexivity|];
             split; [reflexivity|]; eexists; split; [reflexivity|];
             split; [discriminate|vm_compute; reflexivity]|]).
    by apply elem_of_nil in Hin.
  - unfold resolveCoreToolProfilePolicy in Hb. destruct (Js.nonEmpty b); simpl in Hb; [|done].
    by destruct (coreProfile_other b Hout) as [E|E]; rewrite E in Hb.
Qed.

Lemma filter_none_denied (l : list string) :
  List.filter (λ t, negb (bool_decide (t ∈ ([] : list string)))) l = l.
Proof.
  induction l as [|x l IH]; [done|]. cbn [List.filter].
  rewrite bool_decide_eq_false_2 by apply not_elem_of_nil. cbn [negb]. by rewrite IH.
Qed.

(** X12: a named profile that only extends a built-in profile resolves to
    exactly the policy [resolveCoreToolProfilePolicy] gives for that
    built-in, with the chain [name, built-in]; unless the profile itself
    bears the name of that built-in: then the [extends] is a self reference
    and the profile resolves to nothing. *)
Theorem extends_builtin_inherits
    (profileName b : string) (namedProfiles : gmap string NamedProfileInput)
    (pol : ToolProfilePolicy) :
  namedProfiles !! profileName = Some (mkNamed (Some b) None None) →
  resolveCoreToolProfilePolicy (Some b) = Some pol →
  resolveNamedToolProfilePolicy profileName namedProfiles
  = Returned (if bool_decide (b = profileName) then None
              else Some {| policy := pol;
                           trace := {| resolvedFrom := [profileName; b];
                                       effectiveAllow := default [] (allow pol);
                                       effectiveDeny := [] |} |}).
Proof.
  intros Hown Hb.
  apply resolveCore_builtin in Hb as (Hcore & Hdeny & Htruthy & ids & Hallow & Hsome & Hids).
  apply namedProfile_own in Hown.
  destruct (decide (b = profileName)) as [->|Hself];
    [rewrite (bool_decide_eq_true_2 _ eq_refl)|rewrite (bool_decide_eq_false_2 _ Hself)];
    rewrite (resolveNamed_value _ _ _ Hown), merge_spec; cbv zeta.
  - assert (Spec.chainOf namedProfiles profileName = [profileName]) as ->.
    { unfold Spec.chainOf. rewrite Hown.
      cbn [Spec.parentsOf MAX_EXTENDS_DEPTH Nat.sub extends].
      rewrite Htruthy, bool_decide_eq_true_2; [done|]. by apply list_elem_of_singleton. }
    unfold Spec.links. rewrite Hown. reflexivity.
  - assert (Spec.chainOf namedProfiles profileName = [profileName; b]) as ->.
    { unfold Spec.chainOf. rewrite Hown.
      cbn [Spec.parentsOf MAX_EXTENDS_DEPTH Nat.sub extends].
      rewrite Htruthy, bool_decide_eq_false_2, Hcore; [done|].
      by intros ->%list_elem_of_singleton. }
    assert (Spec.links namedProfiles [profileName; b]
            = [mkNamed (Some b) None None; mkNamed None (allow pol) (deny pol)]) as ->.
    { unfold Spec.links, Spec.linkOf. rewrite Hown. cbn [fmap list_fmap default].
      by rewrite Hcore. }
    rewrite !allAllowOf_cons, !allDenyOf_cons. cbn [nallow ndeny default app].
    rewrite Hallow, Hdeny. unfold Spec.allAllowOf, Spec.allDenyOf.
    cbn [fmap list_fmap concat default app]. rewrite app_nil_r.
    cbn [allAllow allDeny chain Datatypes.id].
    unfold Spec.effective_allow, Spec.effective_deny. cbn [Spec.dedup].
    rewrite Hids, filter_none_denied.
    destruct pol as [a d]. cbn [allow deny] in *. subst a d.
    by destruct ids.
Qed.

Lemma extends_builtin_inherits_witness :
  resolveNamedToolProfilePolicy "chat" Sample.plainChild
  = Returned (Some {| policy := mkPolicy (Some (listCoreToolIdsForProfile Messaging)) None;
                      trace := {| resolvedFrom := ["chat"; "messaging"];
                                  effectiveAllow := listCoreToolIdsForProfile Messaging;
                                  effectiveDeny := [] |} |})
  ∧ resolveNamedToolProfilePolicy "coding" Sample.selfCoding = Returned None.
Proof.
  split.
  - apply (extends_builtin_inherits "chat" "messaging" Sample.plainChild
             (mkPolicy (Some (listCoreToolIdsForProfile Messaging)) None));
      [reflexivity|vm_compute; reflexivity].
  - apply (extends_builtin_inherits "coding" "coding" Sample.selfCoding
             (mkPolicy (Some (listCoreToolIdsForProfile Coding)) None));
      [reflexivity|vm_compute; reflexivity].
Defined.

(** X13: an [extends] that is the empty string, that points back to the
    profile itself, or that points to a name that is neither built-in nor
    defined, adds nothing: the result is merged from the profile's own lists
    alone; the chain is the profile name alone for an empty [extends] and
    for a self reference, and the profile name followed by the target for
    an undefined target. *)
Theorem dangling_extends_ignored
    (profileName q : string) (namedProfiles : gmap string NamedProfileInput)
    (p : NamedProfileInput) :
  namedProfiles !! profileName = Some p →
  extends p = Some q →
  q = profileName ∨ q = EmptyString
  ∨ (coreProfile q = None ∧ namedProfiles !! q = None) →
  let visitedNames :=
    if bool_decide (q = profileName ∨ q = EmptyString)
    then [profileName] else [profileName; q] in
  resolveNamedToolProfilePolicy profileName namedProfiles
  = Returned (merge (mkWalk visitedNames (list_to_set visitedNames)
                       (default [] (nallow p)) (default [] (ndeny p)))).
Proof.
  intros Hown Hext Hq visitedNames. apply namedProfile_own in Hown.
  rewrite (resolveNamed_value _ _ _ Hown).
  assert (∃ parents,
            visitedNames = profileName :: parents
            ∧ Spec.parentsOf (MAX_EXTENDS_DEPTH - 1) namedProfiles [profileName] (Some p)
              = parents
            ∧ Spec.allAllowOf (Spec.linkOf namedProfiles <$> parents) = []
            ∧ Spec.allDenyOf (Spec.linkOf namedProfiles <$> parents) = [])
    as (parents & Hshape & Hparents & Ha & Hd).
  { subst visitedNames.
    cbn [Spec.parentsOf MAX_EXTENDS_DEPTH Nat.sub]. rewrite Hext.
    unfold Js.nonEmpty.
    destruct (String.eqb_spec q EmptyString) as [Hempty|Hfull]; cbn [negb andb].
    { exists []. rewrite bool_decide_eq_true_2 by (by right). auto. }
    destruct (decide (q = profileName)) as [Hself|Hother].
    { exists []. rewrite bool_decide_eq_true_2 by (by left).
      rewrite bool_decide_eq_true_2 by (by apply list_elem_of_singleton). auto. }
    rewrite (bool_decide_eq_false_2 (q ∈ [profileName]))
      by (by intros ?%list_elem_of_singleton).
    cbn [negb].
    destruct Hq as [->|[->|[Hcore Hnone]]]; [done|done|].
    rewrite Hcore.
    assert (namedProfile namedProfiles q = None) as Hnamed.
    { unfold namedProfile, Js.get. rewrite Hnone.
      by rewrite (coreProfile_not_inherited q Hcore). }
    rewrite Hnamed. exists [q].
    rewrite bool_decide_eq_false_2 by tauto.
    split; [done|]. split; [done|].
    unfold Spec.linkOf, Spec.allAllowOf, Spec.allDenyOf.
    cbn [fmap list_fmap]. by rewrite Hcore, Hnamed. }
  unfold Spec.chainOf. rewrite Hown, Hparents, Hshape.
  unfold Spec.links. rewrite Hown. cbn [default].
  rewrite allAllowOf_cons, allDenyOf_cons, Ha, Hd, !app_nil_r. reflexivity.
Qed.

Lemma dangling_extends_ignored_witness :
  resolveNamedToolProfilePolicy "loop" Sample.plainChild
  = Returned (Some (mkResolved (mkPolicy (Some ["read"]) None)
                      (mkTrace ["loop"] ["read"] [])))
  ∧ resolveNamedToolProfilePolicy "orphan" Sample.plainChild
    = Returned (Some (mkResolved (mkPolicy (Some ["read"]) (Some ["exec"]))
                        (mkTrace ["orphan"; "nowhere"] ["read"] ["exec"])))
  ∧ resolveNamedToolProfilePolicy "blank" Sample.blankExtends
    = Returned (Some (mkResolved (mkPolicy None (Some ["exec"]))
                        (mkTrace ["blank"] [] ["exec"]))).
Proof.
  split; [|split].
  - rewrite (dangling_extends_ignored "loop" "loop" Sample.plainChild
               (mkNamed (Some "loop") (Some ["read"]) None) eq_refl eq_refl);
      [reflexivity|by left].
  - rewrite (dangling_extends_ignored "orphan" "nowhere" Sample.plainChild
               (mkNamed (Some "nowhere") (Some ["read"]) (Some ["exec"])) eq_refl eq_refl);
      [reflexivity|right; right; split; reflexivity].
  - rewrite (dangling_extends_ignored "blank" EmptyString Sample.blankExtends
               (mkNamed (Some EmptyString) None (Some ["exec"])) eq_refl eq_refl);
      [reflexivity|right; by left].
Defined.

(** Named resolution always returns. *)
Lemma resolveNamed_returns profileName namedProfiles :
  ∃ r, resolveNamedToolProfilePolicy profileName namedProfiles = Returned r.
Proof.
  destruct (namedProfile namedProfiles profileName) as [profile|] eqn:Hp.
  - rewrite (resolveNamed_value _ _ _ Hp). by eexists.
  - unfold resolveNamedToolProfilePolicy, resolveNamedWith. rewrite Hp. by eexists.
Qed.

(** X14: [resolveToolProfilePolicy] always returns; a built-in policy
    takes precedence, so a named profile called [minimal], [coding] or
    [messaging] is never used; without named profiles the result is the
    built-in one; any other name that is not empty (also [full]) is looked
    up among the named profiles. *)
Theorem resolveToolProfilePolicy_precedence
    (profile : option string)
    (namedProfiles : option (gmap string NamedProfileInput)) :
  (∃ r, Shared.resolveToolProfilePolicy profile namedProfiles = Returned r)
  ∧ (∀ pol, resolveCoreToolProfilePolicy profile = Some pol →
       Shared.resolveToolProfilePolicy profile namedProfiles = Returned (Some pol))
  ∧ Shared.resolveToolProfilePolicy profile None
    = Returned (resolveCoreToolProfilePolicy profile)
  ∧ (∀ n m, profile = Some n → namedProfiles = Some m → Js.nonEmpty n = true →
       resolveCoreToolProfilePolicy profile = None →
       ∃ r, resolveNamedToolProfilePolicy n m = Returned r
            ∧ Shared.resolveToolProfilePolicy profile namedProfiles
              = Returned (policy <$> r)).
Proof.
  unfold Shared.resolveToolProfilePolicy. split; [|split; [|split]].
  - destruct (resolveCoreToolProfilePolicy profile); [by eexists|].
    destruct profile as [n|], namedProfiles as [m|]; try by eexists.
    destruct (Js.nonEmpty n); [|by eexists].
    destruct (resolveNamed_returns n m) as [r ->]. by eexists.
  - by intros pol ->.
  - destruct (resolveCoreToolProfilePolicy profile); [done|]. by destruct profile.
  - intros n m -> -> Htruthy ->. rewrite Htruthy.
    destruct (resolveNamed_returns n m) as [r ->]. by exists r.
Qed.

Lemma resolveToolProfilePolicy_precedence_witness :
  Shared.resolveToolProfilePolicy (Some "coding") (Some Sample.shadowed)
  = Returned (Some (mkPolicy (Some (listCoreToolIdsForProfile Coding)) None))
  ∧ ∃ r, resolveNamedToolProfilePolicy "full" Sample.cyclic = Returned r
         ∧ Shared.resolveToolProfilePolicy (Some "full") (Some Sample.cyclic)
           = Returned (policy <$> r).
Proof.
  split.
  - destruct (resolveToolProfilePolicy_precedence (Some "coding") (Some Sample.shadowed))
      as (_ & Hcore & _). apply Hcore. vm_compute. reflexivity.
  - destruct (resolveToolProfilePolicy_precedence (Some "full") (Some Sample.cyclic))
      as (_ & _ & _ & Hnamed).
    apply (Hnamed "full" Sample.cyclic); reflexivity.
Defined.



End ResolverEdges.

(* ===================================================================== *)
(** ** More of the pipeline, for any imported helpers                      *)
(* ===================================================================== *)

Section PipelineShape.
Import Pipeline(spolicy, slabel, sstripPluginOnlyAllowlist, runSteps, applyStep).
Variable I : Pipeline.Imports.

Lemma applyStep_absent groups core filtered step :
  spolicy step = None → applyStep I groups core filtered step = (filtered, []).
Proof. intros H. unfold applyStep. by rewrite H. Qed.

Lemma runSteps_skips_absent groups core steps : ∀ filtered,
  runSteps I groups core filtered steps
  = runSteps I groups core filtered (List.filter Spec.hasPolicy steps).
Proof.
  induction steps as [|step steps IH]; intros filtered; [done|].
  cbn [List.filter]. unfold Spec.hasPolicy at 1.
  case_bool_decide as Hp; cbn [runSteps].
  - destruct (applyStep I groups core filtered step) as [filtered' w].
    by rewrite IH.
  - assert (spolicy step = None) as Hnone.
    { destruct (spolicy step); [destruct Hp; by eexists|done]. }
    rewrite (applyStep_absent _ _ _ _ Hnone), IH.
    by destruct (runSteps I groups core filtered _).
Qed.

(** X15: steps without a policy are skipped: the pipeline returns the same
    list and the same warnings as on the steps that carry a policy, and on
    steps that all lack a policy it returns the tools unchanged and emits
    no step warning. *)
Theorem absent_policy_steps_skipped
    (tools : list AnyAgentTool) (toolMeta : AnyAgentTool → option string)
    (steps : list Pipeline.ToolPolicyPipelineStep)
    (ctx : option Pipeline.NamedProfileContext) :
  Pipeline.applyToolPolicyPipeline I tools toolMeta steps ctx
  = Pipeline.applyToolPolicyPipeline I tools toolMeta (List.filter Spec.hasPolicy steps) ctx
  ∧ (Forall (λ s, spolicy s = None) steps →
     Pipeline.applyToolPolicyPipeline I tools toolMeta steps None = (tools, [])).
Proof.
  split.
  - unfold Pipeline.applyToolPolicyPipeline. by rewrite runSteps_skips_absent.
  - intros Hnone. unfold Pipeline.applyToolPolicyPipeline.
    rewrite runSteps_skips_absent.
    assert (List.filter Spec.hasPolicy steps = []) as ->; [|done].
    induction Hnone as [|s steps Hs _ IH]; [done|]. cbn [List.filter].
    unfold Spec.hasPolicy at 1. rewrite Hs.
    rewrite bool_decide_eq_false_2; [done|]. by intros [? [=]].
Qed.

Lemma runSteps_app groups core first second : ∀ filtered,
  runSteps I groups core filtered (first ++ second)
  = let '(mid, w1) := runSteps I groups core filtered first in
    let '(out, w2) := runSteps I groups core mid second in
    (out, w1 ++ w2).
Proof.
  induction first as [|step first IH]; intros filtered; cbn [app runSteps].
  - by destruct (runSteps I groups core filtered second).
  - destruct (applyStep I groups core filtered step) as [filtered' w].
    rewrite IH. destruct (runSteps I groups core filtered' first) as [mid w1].
    destruct (runSteps I groups core mid second) as [out w2].
    by rewrite app_assoc.
Qed.

(** X16: the steps compose: the pipeline on [first ++ second] returns what
    the steps of [second] make of the output of the pipeline on [first],
    with the plugin groups and the core tool names still those of the tools
    given at the start, not of the narrowed list; the warnings of [first]
    come before those of [second]. *)
Theorem pipeline_steps_compose
    (tools : list AnyAgentTool) (toolMeta : AnyAgentTool → option string)
    (first second : list Pipeline.ToolPolicyPipelineStep) :
  let groups := Pipeline.buildPluginToolGroups I tools toolMeta in
  let core := Pipeline.coreToolNamesOf tools toolMeta in
  let before := Pipeline.applyToolPolicyPipeline I tools toolMeta first None in
  let after := runSteps I groups core (fst before) second in
  Pipeline.applyToolPolicyPipeline I tools toolMeta (first ++ second) None
  = (fst after, snd before ++ snd after).
Proof.
  cbv zeta. unfold Pipeline.applyToolPolicyPipeline. rewrite runSteps_app.
  destruct (runSteps I _ _ tools first) as [mid w1]. cbn [fst snd].
  destruct (runSteps I _ _ mid second) as [out w2]. cbn [fst snd].
  by rewrite !app_nil_r.
Qed.

Lemma unknownEntriesWarning_length label resolved :
  length (Pipeline.unknownEntriesWarning label resolved) ≤ 1.
Proof. unfold Pipeline.unknownEntriesWarning. case_bool_decide; simpl; lia. Qed.

Lemma applyStep_warnings groups core filtered step :
  length (snd (applyStep I groups core filtered step))
  ≤ (if Spec.mayWarn step then 1 else 0).
Proof.
  unfold applyStep, Spec.mayWarn, Spec.hasPolicy.
  destruct (spolicy step) as [p|]; [|simpl; lia].
  rewrite bool_decide_eq_true_2 by (by eexists).
  destruct (sstripPluginOnlyAllowlist step); simpl; [|lia].
  apply unknownEntriesWarning_length.
Qed.

Lemma runSteps_warnings groups core steps : ∀ filtered,
  length (snd (runSteps I groups core filtered steps))
  ≤ length (List.filter Spec.mayWarn steps).
Proof.
  induction steps as [|step steps IH]; intros filtered; cbn [runSteps List.filter]; [done|].
  pose proof (applyStep_warnings groups core filtered step) as Hstep.
  destruct (applyStep I groups core filtered step) as [filtered' w].
  specialize (IH filtered').
  destruct (runSteps I groups core filtered' steps) as [out ws].
  cbn [snd] in *. rewrite length_app.
  destruct (Spec.mayWarn step); cbn [length]; lia.
Qed.

Lemma postPipelineWarnings_length ctx filtered :
  length (Pipeline.postPipelineWarnings ctx filtered) ≤ 1.
Proof.
  unfold Pipeline.postPipelineWarnings.
  repeat match goal with |- context [if ?b then _ else _] => destruct b end;
    cbn [length]; lia.
Qed.

(** X17: the pipeline warns at most once per step that carries a policy
    and asks for the allowlist safety filter, plus at most once after the
    loop when there is a named profile context; with no such step and no
    context it is silent. *)
Theorem pipeline_warning_budget
    (tools : list AnyAgentTool) (toolMeta : AnyAgentTool → option string)
    (steps : list Pipeline.ToolPolicyPipelineStep)
    (ctx : option Pipeline.NamedProfileContext) :
  length (snd (Pipeline.applyToolPolicyPipeline I tools toolMeta steps ctx))
  ≤ length (List.filter Spec.mayWarn steps) + match ctx with Some _ => 1 | None => 0 end
  ∧ (Forall (λ s, Spec.mayWarn s = false) steps →
     snd (Pipeline.applyToolPolicyPipeline I tools toolMeta steps None) = []).
Proof.
  assert (∀ c, length (snd (Pipeline.applyToolPolicyPipeline I tools toolMeta steps c))
               ≤ length (List.filter Spec.mayWarn steps) + match c with Some _ => 1 | None => 0 end) as Hbudget.
  { intros c. unfold Pipeline.applyToolPolicyPipeline.
    pose proof (runSteps_warnings (Pipeline.buildPluginToolGroups I tools toolMeta)
                  (Pipeline.coreToolNamesOf tools toolMeta) steps tools) as Hsteps.
    destruct (runSteps I _ _ tools steps) as [filtered warned].
    cbn [snd] in *. rewrite length_app. destruct c as [c|]; cbn [length]; [|lia].
    pose proof (postPipelineWarnings_length c filtered). lia. }
  split; [apply Hbudget|]. intros Hquiet.
  specialize (Hbudget None).
  assert (List.filter Spec.mayWarn steps = []) as Hnone.
  { clear Hbudget. induction Hquiet as [|s steps' Hs _ IH]; [done|].
    cbn [List.filter]. by rewrite Hs. }
  rewrite Hnone in Hbudget. cbn [length] in Hbudget.
  destruct (snd _); [done|]. cbn [length] in Hbudget. lia.
Qed.

End PipelineShape.

Lemma absent_policy_steps_skipped_witness :
  Pipeline.applyToolPolicyPipeline specImports Sample.allTools Sample.noMeta
    (Pipeline.buildDefaultToolPolicyPipelineSteps None (Some "coding") None None
       None None None None None (Some "main")) None
  = (Sample.allTools, []).
Proof.
  apply (proj2 (absent_policy_steps_skipped specImports Sample.allTools Sample.noMeta _ None)).
  repeat constructor.
Defined.

Lemma pipeline_warning_budget_witness :
  snd (Pipeline.applyToolPolicyPipeline specImports Sample.allTools Sample.noMeta
         [Sample.denyExec; Sample.denyFsGroup] None) = [].
Proof.
  apply (proj2 (pipeline_warning_budget specImports Sample.allTools Sample.noMeta _ None)).
  repeat constructor.
Defined.

(* ===================================================================== *)
(** ** More of the reset command: its guards                              *)
(* ===================================================================== *)

Section ResetGuards.
Import Reset.

Lemma resetAccepted_dec params allow :
  Spec.resetAccepted params allow
  ∨ allow = false
  ∨ commandBodyNormalized (command params) ≠ "/tools:reset"
  ∨ (allow = true ∧ commandBodyNormalized (command params) = "/tools:reset"
     ∧ isAuthorizedSender (command params) = false).
Proof.
  unfold Spec.resetAccepted. destruct allow; [|tauto].
  destruct (String.eqb_spec (commandBodyNormalized (command params)) "/tools:reset");
    [|tauto].
  destruct (isAuthorizedSender (command params)); tauto.
Qed.

Lemma handle_off params stores :
  handleToolsResetCommand params false stores = (None, (stores, params)).
Proof. reflexivity. Qed.

Lemma handle_other params allow stores :
  commandBodyNormalized (command params) ≠ "/tools:reset" →
  handleToolsResetCommand params allow stores = (None, (stores, params)).
Proof.
  intros Hne. unfold handleToolsResetCommand. destruct allow; [|reflexivity].
  cbn [negb]. destruct (String.eqb_spec (commandBodyNormalized (command params))
                          "/tools:reset"); [done|reflexivity].
Qed.

Lemma handle_unauthorized params stores :
  commandBodyNormalized (command params) = "/tools:reset" →
  isAuthorizedSender (command params) = false →
  handleToolsResetCommand params true stores
  = (Some (mkResult None false), (stores, params)).
Proof.
  intros Hc Ha. unfold handleToolsResetCommand. rewrite Hc, Ha. reflexivity.
Qed.

Lemma handle_no_session params stores :
  Spec.resetAccepted params true → ¬ Spec.hasSession params →
  handleToolsResetCommand params true stores
  = (Spec.replied "Cannot reset tool overrides: no active session.", (stores, params)).
Proof.
  intros (_ & Hc & Ha) Hno. unfold handleToolsResetCommand, Spec.hasSession in *.
  rewrite Hc, Ha. cbn [negb String.eqb]. 
  destruct (truthyString (storePath params)) as [path|];
    destruct (truthyString (sessionKey params)) as [key|]; try reflexivity.
  destruct Hno. split; by eexists.
Qed.

Lemma handle_session params stores :
  Spec.resetAccepted params true → Spec.hasSession params →
  ∃ path key,
    storePath params = Some path ∧ path ≠ EmptyString
    ∧ sessionKey params = Some key ∧ key ≠ EmptyString
    ∧ handleToolsResetCommand params true stores
      = (Spec.replied (if hadOverrides (sessionEntry params)
                       then "Tool overrides cleared. Tools restored to config baseline."
                       else "No tool overrides were active."),
         (updateSessionStoreEntry stores path key clearOverrides,
          mkParams (command params) (storePath params) (sessionKey params)
            (clearOverrides <$> sessionEntry params))).
Proof.
  intros (_ & Hc & Ha) [Hp Hk].
  apply truthyString_is_Some in Hp as (path & Hp & Hpne).
  apply truthyString_is_Some in Hk as (key & Hk & Hkne).
  exists path, key. repeat (split; [done|]).
  unfold handleToolsResetCommand. rewrite Hc, Ha, Hp, Hk.
  rewrite !truthyString_Some by done. reflexivity.
Qed.

(** X18: the guards protect the state: unless text commands are allowed,
    the body is exactly [/tools:reset], the sender is authorized, and the
    call names a store path and a session key that are not empty, the
    handler leaves the session stores and [params] as they were; in
    particular a sender who is not authorized clears nothing. *)
Theorem reset_guards_protect_state
    (params : Params) (allowTextCommands : bool) (stores : Stores) :
  ¬ (Spec.resetAccepted params allowTextCommands ∧ Spec.hasSession params) →
  snd (handleToolsResetCommand params allowTextCommands stores) = (stores, params).
Proof.
  intros Hguard.
  destruct (resetAccepted_dec params allowTextCommands)
    as [Hacc|[->|[Hne|(-> & Hc & Ha)]]].
  - assert (allowTextCommands = true) as -> by apply Hacc.
    rewrite handle_no_session; [done|done|tauto].
  - by rewrite handle_off.
  - by rewrite handle_other.
  - by rewrite handle_unauthorized.
Qed.

Lemma reset_guards_protect_state_witness :
  let params :=
    mkParams (mkCommand "/tools:reset" false) (Some "store.json") (Some "main")
      (Some Sample.overridden) in
  snd (handleToolsResetCommand params true (<[("store.json", "main") := Sample.overridden]> ∅))
  = (<[("store.json", "main") := Sample.overridden]> ∅, params).
Proof.
  cbv zeta. apply reset_guards_protect_state.
  intros [(_ & _ & Ha) _]. discriminate Ha.
Defined.

(** X19: the shape of the result: it is [null] exactly when text commands
    are off or the body is another command; every other result stops the
    command chain ([shouldContinue] is false); it carries no reply exactly
    when the sender is not authorized, the reply [Cannot reset tool
    overrides: no active session.] exactly when an accepted command names
    no session, and one of the two reset messages otherwise. *)
Theorem reset_result_shape
    (params : Params) (allowTextCommands : bool) (stores : Stores) :
  let result := fst (handleToolsResetCommand params allowTextCommands stores) in
  (result = None
   ↔ allowTextCommands = false
     ∨ commandBodyNormalized (command params) ≠ "/tools:reset")
  ∧ (∀ r, result = Some r →
       shouldContinue r = false
       ∧ (reply r = None ↔ isAuthorizedSender (command params) = false)
       ∧ (reply r = Some "Cannot reset tool overrides: no active session."
          ↔ Spec.resetAccepted params allowTextCommands ∧ ¬ Spec.hasSession params)
       ∧ (reply r = Some "Tool overrides cleared. Tools restored to config baseline."
          ∨ reply r = Some "No tool overrides were active."
          ↔ Spec.resetAccepted params allowTextCommands ∧ Spec.hasSession params)).
Proof.
  cbv zeta.
  destruct (resetAccepted_dec params allowTextCommands)
    as [Hacc|[->|[Hne|(-> & Hc & Ha)]]].
  - pose proof Hacc as (-> & Hc & Ha).
    destruct (decide (Spec.hasSession params)) as [Hs|Hs].
    + destruct (handle_session params stores Hacc Hs) as (path & key & _ & _ & _ & _ & ->).
      cbn [fst]. split.
      * split; [discriminate|]. intros [[=]|Hne]; done.
      * intros r [= <-]. cbn [reply shouldContinue]. split; [done|].
        split; [split; [discriminate|congruence]|].
        split.
        -- split; [|tauto]. by destruct (hadOverrides (sessionEntry params)).
        -- split; [done|]. intros _. destruct (hadOverrides (sessionEntry params)); auto.
    + rewrite (handle_no_session params stores Hacc Hs). cbn [fst]. split.
      * split; [discriminate|]. intros [[=]|Hne]; done.
      * intros r [= <-]. cbn [reply shouldContinue]. split; [done|].
        split; [split; [discriminate|congruence]|].
        split; [done|]. split; [|tauto]. intros [[=]|[=]].
  - rewrite handle_off. cbn [fst]. split; [tauto|]. intros r [=].
  - rewrite (handle_other _ _ _ Hne). cbn [fst]. split; [tauto|]. intros r [=].
  - rewrite (handle_unauthorized _ _ Hc Ha). cbn [fst]. split.
    + split; [discriminate|]. intros [[=]|Hne]; done.
    + intros r [= <-]. cbn [reply shouldContinue]. split; [done|]. split; [done|].
      unfold Spec.resetAccepted.
      split; (split; [|intros [(_ & _ & Ha') _]; congruence]).
      * discriminate.
      * intros [[=]|[=]].
Qed.

Lemma reset_result_shape_witness :
  fst (handleToolsResetCommand
         (mkParams (mkCommand "/tools:reset " true) (Some "store.json") (Some "main") None)
         true ∅) = None.
Proof.
  apply (reset_result_shape
           (mkParams (mkCommand "/tools:reset " true) (Some "store.json") (Some "main") None)
           true ∅).
  right. discriminate.
Defined.

(** X20: the reply is computed from [params.sessionEntry] alone: the
    result does not depend on the session stores, so with no session entry
    in [params] an accepted reset answers [No tool overrides were active.]
    whatever the store holds; and the [params] of an accepted reset keep
    their command, store path and session key, and the session entry, when
    there is one, keeps what it carries besides the four override fields,
    which are all absent afterwards. *)
Theorem reset_reads_params_only
    (params : Params) (allowTextCommands : bool) (stores stores' : Stores) :
  let run := handleToolsResetCommand params allowTextCommands stores in
  let params' := snd (snd run) in
  fst run = fst (handleToolsResetCommand params allowTextCommands stores')
  ∧ snd (snd run) = snd (snd (handleToolsResetCommand params allowTextCommands stores'))
  ∧ command params' = command params
  ∧ storePath params' = storePath params
  ∧ sessionKey params' = sessionKey params
  ∧ otherFields <$> sessionEntry params' = otherFields <$> sessionEntry params
  ∧ (Spec.resetAccepted params allowTextCommands → Spec.hasSession params →
     sessionEntry params = None →
     fst run = Spec.replied "No tool overrides were active.")
  ∧ (Spec.resetAccepted params allowTextCommands → Spec.hasSession params →
     ∀ e, sessionEntry params' = Some e → ¬ Spec.anyOverrideSet e).
Proof.
  cbv zeta.
  destruct (resetAccepted_dec params allowTextCommands)
    as [Hacc|[->|[Hne|(-> & Hc & Ha)]]].
  - pose proof Hacc as (-> & Hc & Ha).
    destruct (decide (Spec.hasSession params)) as [Hs|Hs].
    + destruct (handle_session params stores Hacc Hs) as (path & key & Hp & _ & Hk & _ & ->).
      destruct (handle_session params stores' Hacc Hs)
        as (path' & key' & Hp' & _ & Hk' & _ & ->).
      cbn [fst snd command storePath sessionKey sessionEntry].
      repeat (split; [done|]).
      split; [by destruct (sessionEntry params)|].
      split; [by intros _ _ ->|].
      intros _ _ e He. destruct (sessionEntry params) as [e0|]; [|done].
      injection He as <-. unfold Spec.anyOverrideSet. cbn. 
      intros [H|[H|[H|H]]]; by destruct H.
    + rewrite !(handle_no_session params _ Hacc Hs). cbn [fst snd]. tauto.
  - rewrite !handle_off. cbn [fst snd]. repeat (split; [done|]).
    split; intros (? & _); done.
  - rewrite !(handle_other _ _ _ Hne). cbn [fst snd]. repeat (split; [done|]).
    split; intros (_ & ? & _); done.
  - rewrite !(handle_unauthorized _ _ Hc Ha). cbn [fst snd]. repeat (split; [done|]).
    split; intros (_ & _ & ?); congruence.
Qed.

Lemma reset_reads_params_only_witness :
  fst (handleToolsResetCommand (Spec.resetParams "store.json" "main" None) true
         (<[("store.json", "main") := Sample.overridden]> ∅))
  = Spec.replied "No tool overrides were active.".
Proof.
  pose proof (reset_reads_params_only (Spec.resetParams "store.json" "main" None) true
                (<[("store.json", "main") := Sample.overridden]> ∅) ∅) as H.
  cbv zeta in H. destruct H as (_ & _ & _ & _ & _ & _ & H & _).
  apply H.
  - repeat split.
  - split; by eexists.
  - reflexivity.
Defined.

End ResetGuards.

(* ===================================================================== *)
(** ** The catalog under group expansion                                  *)
(* ===================================================================== *)

Section CatalogExpansion.
Import Js Catalog Shared.

(** X21: the catalog is closed under expansion: the allow list of every
    built-in profile holds canonical tool ids only, so [expandToolGroups]
    returns it as it is, in the same order; and a list that names one group
    expands to exactly the members of that group, in the group's order. *)
Theorem catalog_closed_under_expansion
    (p : ToolProfileId) (key : string) (members : list string) :
  expandToolGroups (Some (listCoreToolIdsForProfile p))
  = Some (Str <$> listCoreToolIdsForProfile p)
  ∧ (TOOL_GROUPS !! key = Some members →
     expandToolGroups (Some [key]) = Some (Str <$> members)).
Proof.
  split.
  - destruct p; vm_compute; reflexivity.
  - intros Hkey. apply elem_of_map_to_list in Hkey. revert Hkey.
    set (groups := map_to_list TOOL_GROUPS). vm_compute in groups. subst groups.
    intros Hkey. apply list_elem_of_In in Hkey. cbn [In] in Hkey.
    repeat (destruct Hkey as [[= <- <-]|Hkey]; [vm_compute; reflexivity|]).
    destruct Hkey.
Qed.

Lemma catalog_closed_under_expansion_witness :
  expandToolGroups (Some ["group:fs"]) = Some (Str <$> ["read"; "write"; "edit"; "apply_patch"]).
Proof.
  apply (proj2 (catalog_closed_under_expansion Minimal "group:fs"
                  ["read"; "write"; "edit"; "apply_patch"])).
  vm_compute. reflexivity.
Defined.

End CatalogExpansion.
